(** * LLMandKBBI: the Ollama definition generator

    A shallow embedding of [ollama_generation_code.py] and the properties
    of its cleaning function, its retry loop, its connectivity probe, its
    loader and its batch loop.

    Text.  A Python [str] is a list of Unicode code points.  What the
    program asks of the Unicode tables of its runtime ([str.isspace],
    [str.lower], the classes [\s] and [\d] of [re], matching under
    [re.IGNORECASE]) is a parameter of the embedding, the class
    [Unicode]; the general properties hold for every such table.  The
    runs on concrete texts use the table [latin1], which is the table of
    Python on the code points below U+0100, where all their texts lie.

    Tables.  A pandas frame has named columns and rows of cells; a cell
    is a text, a number (finite or infinite), a truth value or NaN, as
    [pd.read_csv] delivers them.  Asking a frame for a column it does not have raises
    [KeyError].

    Effects.  The program talks to an HTTP server, reads and writes CSV
    files, prints and sleeps.  The replies of the outside world are given
    by a [World]; the program is a state-passing function that records
    every effect in a trace and returns either a value or a raised
    exception.  Every request is answered or raises; a request that hangs
    for ever is not modelled. *)

From Stdlib Require Import ZArith NArith QArith Qcanon Ascii String.
From stdpp Require Import numbers base option list gmap strings pretty.

Local Open Scope Z_scope.

(** ** Characters and strings *)

Abbreviation str := (list N).

(** A string literal of the source, as a list of code points. *)
Definition txt (s : string) : str := N_of_ascii <$> list_ascii_of_string s.

Definition colon : N := 58%N.
Definition period : N := 46%N.

(** The Unicode tables of the Python runtime, as far as the program uses
    them.
    - [isspace c]: [c] is white space for [str.isspace], hence for
      [str.strip] and for the class [\s] of [re], which use the same set;
    - [isdigit c]: [c] is in the class [\d] of [re];
    - [str_lower s]: the string [s.lower()];
    - [ci_match p c]: under [re.IGNORECASE] the literal character [p] of
      a pattern matches the character [c] of the text. *)
Class Unicode : Type := {
  isspace : N → bool;
  isdigit : N → bool;
  str_lower : str → str;
  ci_match : N → N → bool
}.

(** What the properties about colons, periods and numbers use of the
    tables: under [re.IGNORECASE] a colon or a period of the pattern
    matches only itself; neither is white space or a digit; no digit is
    white space.  The tables of Python have these properties. *)
Class UnicodeLaws (U : Unicode) : Prop := {
  ci_colon c : ci_match colon c = (colon =? c)%N;
  ci_period c : ci_match period c = (period =? c)%N;
  colon_not_space : isspace colon = false;
  colon_not_digit : isdigit colon = false;
  period_not_space : isspace period = false;
  period_not_digit : isdigit period = false;
  digit_not_space c : isdigit c = true → isspace c = false
}.

(** *** The table of Python below U+0100 *)

Definition latin1_isspace (n : N) : bool :=
  (((9 <=? n) && (n <=? 13)) || ((28 <=? n) && (n <=? 32))
   || (n =? 133) || (n =? 160))%N.

Definition latin1_isdigit (n : N) : bool := ((48 <=? n) && (n <=? 57))%N.

(** A-Z, and the accented capitals U+00C0..U+00DE except the
    multiplication sign U+00D7. *)
Definition latin1_lower (n : N) : N :=
  if (((65 <=? n) && (n <=? 90))
      || ((192 <=? n) && (n <=? 222) && negb (n =? 215)))%N
  then (n + 32)%N else n.

Definition latin1 : Unicode :=
  {| isspace := latin1_isspace;
     isdigit := latin1_isdigit;
     str_lower := map latin1_lower;
     ci_match := λ p c, (latin1_lower p =? latin1_lower c)%N |}.

(** [s.startswith(p)] *)
Fixpoint startswith (s p : str) {struct p} : bool :=
  match p, s with
  | [], _ => true
  | _ :: _, [] => false
  | a :: p', b :: s' => (a =? b)%N && startswith s' p'
  end.

(** The text begins with a character of the class [p]. *)
Definition head_in (p : N → bool) (s : str) : bool :=
  match s with
  | c :: _ => p c
  | [] => false
  end.

(** ** The regular expressions of [clean_definition]

    Every pattern of the source is [^] followed by a sequence of
    single-character atoms, each taken once or under one of the greedy
    quantifiers [*], [+], [?].  The matcher below is the backtracking
    matcher of [re] for that fragment: a quantifier first takes as many
    characters as it can and gives them back one at a time while the rest
    of the pattern fails. *)

Inductive atom : Type :=
  | Lit (c : N)       (* an escaped literal character *)
  | Space             (* \s *)
  | Digit.            (* \d *)

Inductive item : Type :=
  | One (a : atom)
  | Star (a : atom)
  | Plus (a : atom)
  | Opt (a : atom).

Abbreviation regex := (list item).

Definition or_else {A} (x y : option A) : option A :=
  match x with Some _ => x | None => y end.

(** [re.escape(word)]: the pattern that matches [word] literally. *)
Definition re_escape (word : str) : regex := map (λ c, One (Lit c)) word.

Definition unwanted_prefixes : list str :=
  [txt "definisi:"; txt "arti:"; txt "makna:"; txt "pengertian:"].

Section Text.

Context {U : Unicode}.

(** [s.lstrip()], [s.rstrip()] and [s.strip()] *)
Fixpoint lstrip (s : str) : str :=
  match s with
  | [] => []
  | c :: s' => if isspace c then lstrip s' else s
  end.

Fixpoint rstrip (s : str) : str :=
  match s with
  | [] => []
  | c :: s' =>
      match rstrip s' with
      | [] => if isspace c then [] else [c]
      | r => c :: r
      end
  end.

Definition strip (s : str) : str := rstrip (lstrip s).

(** One atom against one character; [ic] is the flag [re.IGNORECASE]. *)
Definition atom_match (ic : bool) (a : atom) (c : N) : bool :=
  match a with
  | Lit l => if ic then ci_match l c else (l =? c)%N
  | Space => isspace c
  | Digit => isdigit c
  end.

(** [a*] followed by the continuation [k]: greedy, then backtracking. *)
Fixpoint match_star (ic : bool) (a : atom) (k : str → option str) (s : str)
  : option str :=
  match s with
  | c :: s' =>
      if atom_match ic a c then or_else (match_star ic a k s') (k s) else k s
  | [] => k []
  end.

(** Matches the pattern at the start of [s]; returns what follows the
    match. *)
Fixpoint re_match (ic : bool) (r : regex) (s : str) : option str :=
  match r with
  | [] => Some s
  | One a :: r' =>
      match s with
      | c :: s' => if atom_match ic a c then re_match ic r' s' else None
      | [] => None
      end
  | Star a :: r' => match_star ic a (re_match ic r') s
  | Plus a :: r' =>
      match s with
      | c :: s' =>
          if atom_match ic a c then match_star ic a (re_match ic r') s'
          else None
      | [] => None
      end
  | Opt a :: r' =>
      match s with
      | c :: s' =>
          if atom_match ic a c then or_else (re_match ic r' s') (re_match ic r' s)
          else re_match ic r' s
      | [] => re_match ic r' []
      end
  end.

(** [re.sub('^' + r, '', s, flags)].  The pattern is anchored at the start
    of the string (no [re.MULTILINE]), so at most the match at position 0
    is replaced. *)
Definition re_sub (ic : bool) (r : regex) (s : str) : str :=
  match re_match ic r s with
  | Some rest => rest
  | None => s
  end.

(** ** [clean_definition] (lines 126-151) *)

Definition clean_definition (word definition : str) : str :=
  (* line 131: the word, then [\s*], a colon, [\s*] *)
  let pattern := re_escape word ++ [Star Space; One (Lit colon); Star Space] in
  let definition := strip (re_sub true pattern definition) in
  (* line 135: a colon, then [\s*] *)
  let definition := strip (re_sub false [One (Lit colon); Star Space] definition) in
  let definition :=
    if startswith (str_lower definition) (str_lower word) then
      (* line 139: the word, then [\s*], [\d*], an optional period, [\s*] *)
      let word_pattern :=
        re_escape word ++ [Star Space; Star Digit; Opt (Lit period); Star Space] in
      strip (re_sub true word_pattern definition)
    else definition in
  (* line 143: [\d+], an optional period, [\s*] *)
  let definition :=
    strip (re_sub false [Plus Digit; Opt (Lit period); Star Space] definition) in
  fold_left
    (λ definition prefix,
       if startswith (str_lower definition) prefix
       then strip (drop (length prefix) definition)
       else definition)
    unwanted_prefixes definition.

End Text.

(** ** Exceptions, results and the effect monad *)

(** The exception classes the modelled calls can raise.  All of them are
    subclasses of [Exception]. *)
Inductive exn : Type :=
  | ConnectionError     (* requests.exceptions.ConnectionError *)
  | ReadTimeout         (* requests.exceptions.ReadTimeout *)
  | ConnectTimeout      (* a ConnectionError and a Timeout at once *)
  | RequestException    (* any other error of [requests] *)
  | JSONDecodeError     (* the body is not JSON *)
  | AttributeError      (* a method missing on the object's type *)
  | TypeError           (* an object of the wrong type *)
  | FileNotFoundError
  | KeyError            (* a column the frame does not have *)
  | ParserError         (* any other failure of [pd.read_csv] *)
  | PermissionError.    (* a failure of [to_csv] *)

(** [isinstance(e, requests.exceptions.ConnectionError)] *)
Definition is_ConnectionError (e : exn) : bool :=
  match e with ConnectionError | ConnectTimeout => true | _ => false end.

(** [isinstance(e, requests.exceptions.Timeout)] *)
Definition is_Timeout (e : exn) : bool :=
  match e with ReadTimeout | ConnectTimeout => true | _ => false end.

Inductive result (A : Type) : Type :=
  | Ok (a : A)
  | Raised (e : exn).
Arguments Ok {A} a.
Arguments Raised {A} e.

(** ** JSON bodies, as the Python objects [response.json()] returns

    Numbers are kept as integers: the program never looks inside one. *)

#[warnings="-register-all"]
Inductive json : Type :=
  | JNull
  | JBool (b : bool)
  | JNum (n : Z)
  | JStr (s : str)
  | JList (l : list json)
  | JDict (d : gmap string json).

(** [o.get(key, default)]: defined on dicts only. *)
Definition py_get (o : json) (key : string) (dflt : json) : result json :=
  match o with
  | JDict d => Ok (default dflt (d !! key))
  | _ => Raised AttributeError
  end.

(** The elements a [for] loop or comprehension draws from [o]: the items
    of a list, the keys of a dict, the characters of a string. *)
Definition py_iter (o : json) : result (list json) :=
  match o with
  | JList l => Ok l
  | JDict d => Ok ((λ kv, JStr (txt kv.1)) <$> map_to_list d)
  | JStr s => Ok ((λ c, JStr [c]) <$> s)
  | _ => Raised TypeError
  end.

(** [MODEL_NAME == x] for a string and any object. *)
Definition str_eq_json (s : str) (x : json) : bool :=
  match x with
  | JStr t => bool_decide (s = t)
  | _ => false
  end.

(** ** Cells and frames *)

(** A cell of a frame, as [pd.read_csv] delivers it: a text, the NaN of
    an empty field, a finite number, an infinity, or a truth value. *)
Inductive cell : Type :=
  | CStr (s : str)
  | CNaN
  | CNum (x : Qc)
  | CInf (positive : bool)
  | CBool (b : bool).

(** [a == b] in Python: texts by their characters, numbers by their
    value, [True] and [False] as 1 and 0; NaN equals nothing. *)
Definition py_eq (a b : cell) : bool :=
  match a, b with
  | CStr s, CStr t => bool_decide (s = t)
  | CNum x, CNum y => bool_decide (x = y)
  | CInf x, CInf y => bool_decide (x = y)
  | CBool x, CBool y => bool_decide (x = y)
  | CBool x, CNum y | CNum y, CBool x =>
      bool_decide (y = if x then 1%Qc else 0%Qc)
  | _, _ => false
  end.

(** A frame: its column names, and its rows from top to bottom.  A row
    maps the column names to its cells; a cell it does not list is
    NaN. *)
Record DataFrame : Type := {
  columns : list string;
  rows : list (gmap string cell)
}.

(** The cell of a row under a column. *)
Definition frame_cell (row : gmap string cell) (column : string) : cell :=
  default CNaN (row !! column).

(** [df[column]]: the cells of the column, or [KeyError]. *)
Definition frame_column (df : DataFrame) (column : string)
  : result (list cell) :=
  if bool_decide (column ∈ columns df)
  then Ok ((λ row, frame_cell row column) <$> rows df)
  else Raised KeyError.

(** ** Requests, replies and events *)

Definition OLLAMA_BASE_URL : string := "http://localhost:11434".
Definition MODEL_NAME : str := txt "llama3.2:3b".

(** A request to the server.  The JSON payload of the generation request
    is fixed but for the word in its prompt, so the word stands for it. *)
Inductive request : Type :=
  | GET (url : string)
  | POST (url : string) (word : cell).

(** The [Response] object of [requests]; [body = None] when the body is
    not JSON, so that [.json()] raises. *)
Record response : Type := Response {
  status_code : Z;
  body : option json
}.

(** Each [print] statement of the source with the values it formats. *)
Inductive message : Type :=
  | MsgOllamaRunning                          (* line 24 *)
  | MsgModelAvailable                         (* line 33 *)
  | MsgModelNotFound (model_names : list json) (* line 36 *)
  | MsgPleasePull                             (* line 37 *)
  | MsgCouldNotFetch                          (* line 40 *)
  | MsgNotRunning                             (* line 43 *)
  | MsgCannotConnect                          (* line 46 *)
  | MsgErrorChecking (e : exn)                (* line 49 *)
  | MsgHttpError (status : Z) (word : cell)   (* line 114 *)
  | MsgTimeout (word : cell) (attempt max_retries : Z)          (* line 117 *)
  | MsgGenError (word : cell) (attempt max_retries : Z) (e : exn) (* line 119 *)
  | MsgWordsLoaded (n : nat)                  (* line 158 *)
  | MsgRefLoaded (n : nat)                    (* line 165 *)
  | MsgFileNotFound                           (* line 170 *)
  | MsgMakeSure                               (* line 171 *)
  | MsgLoadError (e : exn)                    (* line 174 *)
  | MsgGenerating (n : nat)                   (* line 183 *)
  | MsgBanner                                 (* line 214 *)
  | MsgRule                                   (* line 215 *)
  | MsgSaved (path : string)                  (* line 232 *)
  | MsgComplete.                              (* line 234 *)

Inductive event : Type :=
  | Printed (m : message)
  | Requested (r : request)
  | Slept (milliseconds : Z)
  | ReadCsv (path : string)
  | WroteCsv (path : string) (df : DataFrame).

(** What the outside world answers: the reply to the [n]-th request the
    program makes, what [pd.read_csv] gives for each input file, and
    whether the output file can be written. *)
Record World : Type := {
  http : nat → request → result response;
  word_csv : result DataFrame;
  reference_csv : result DataFrame;
  output_writable : bool
}.

(** The state the program threads: how many requests it has made, the
    effects so far in order, and the files it has written. *)
Record State : Type := {
  requests : nat;
  trace : list event;
  files : gmap string DataFrame
}.

Definition M (A : Type) : Type := State → result A * State.

Definition ret {A} (a : A) : M A := λ st, (Ok a, st).

Definition bind {A B} (m : M A) (k : A → M B) : M B :=
  λ st, match m st with
        | (Ok a, st') => k a st'
        | (Raised e, st') => (Raised e, st')
        end.

Notation "x <- m ;; k" := (bind m (λ x, k))
  (at level 100, m at next level, right associativity).
Notation "m ;; k" := (bind m (λ _, k))
  (at level 100, right associativity).

(** A pure computation that may raise. *)
Definition lift {A} (r : result A) : M A := λ st, (r, st).

(** [try: body  except Exception as e: handler e] *)
Definition try_except {A} (body : M A) (handler : exn → M A) : M A :=
  λ st, match body st with
        | (Ok a, st') => (Ok a, st')
        | (Raised e, st') => handler e st'
        end.

Definition emit (ev : event) : M unit :=
  λ st, (Ok tt, {| requests := requests st;
                   trace := trace st ++ [ev];
                   files := files st |}).

Definition print (m : message) : M unit := emit (Printed m).

(** [time.sleep] *)
Definition time_sleep (milliseconds : Z) : M unit := emit (Slept milliseconds).

(** [requests.get] and [requests.post]: the world answers the request. *)
Definition send (w : World) (r : request) : M response :=
  λ st, (http w (requests st) r,
         {| requests := S (requests st);
            trace := trace st ++ [Requested r];
            files := files st |}).

Definition requests_get (w : World) (url : string) : M response :=
  send w (GET url).

Definition requests_post (w : World) (url : string) (word : cell) : M response :=
  send w (POST url word).

(** [response.json()] *)
Definition response_json (r : response) : result json :=
  match body r with
  | Some j => Ok j
  | None => Raised JSONDecodeError
  end.

(** ** [check_ollama_connection] (lines 18-50) *)

Definition version_url : string := OLLAMA_BASE_URL +:+ "/api/version".
Definition tags_url : string := OLLAMA_BASE_URL +:+ "/api/tags".
Definition generate_url : string := OLLAMA_BASE_URL +:+ "/api/generate".

(** [[model.get('name', '') for model in models]] over the items drawn
    from [models]; the first item that is not a dict raises. *)
Fixpoint names_of_items (items : list json) : result (list json) :=
  match items with
  | [] => Ok []
  | model :: rest =>
      match py_get model "name" (JStr []) with
      | Raised e => Raised e
      | Ok name =>
          match names_of_items rest with
          | Raised e => Raised e
          | Ok names => Ok (name :: names)
          end
      end
  end.

(** Lines 29-30: the names listed in the body of the reply. *)
Definition listed_model_names (models_response : response)
  : result (list json) :=
  match response_json models_response with
  | Raised e => Raised e
  | Ok data =>
      match py_get data "models" (JList []) with
      | Raised e => Raised e
      | Ok models =>
          match py_iter models with
          | Raised e => Raised e
          | Ok items => names_of_items items
          end
      end
  end.

Definition check_ollama_connection (w : World) : M bool :=
  try_except
    (response <- requests_get w version_url ;;
     if status_code response =? 200 then
       print MsgOllamaRunning ;;
       models_response <- requests_get w tags_url ;;
       if status_code models_response =? 200 then
         model_names <- lift (listed_model_names models_response) ;;
         if existsb (str_eq_json MODEL_NAME) model_names then
           print MsgModelAvailable ;;
           ret true
         else
           print (MsgModelNotFound model_names) ;;
           print MsgPleasePull ;;
           ret false
       else
         print MsgCouldNotFetch ;;
         ret false
     else
       print MsgNotRunning ;;
       ret false)
    (λ e,
       if is_ConnectionError e then print MsgCannotConnect ;; ret false
       else print (MsgErrorChecking e) ;; ret false).

(** ** [load_data] (lines 153-175) *)

Definition read_csv {A} (path : string) (outcome : result A) : M A :=
  emit (ReadCsv path) ;; lift outcome.

(** The word list is the column [word] of the first frame, whatever its
    cells are; the second frame is returned as it was read. *)
Definition load_data (w : World)
  : M (option (list cell) * option DataFrame) :=
  try_except
    (words_df <- read_csv "word.csv" (word_csv w) ;;
     print (MsgWordsLoaded (length (rows words_df))) ;;
     words_list <- lift (frame_column words_df "word") ;;
     ref_df <- read_csv "reference.csv" (reference_csv w) ;;
     print (MsgRefLoaded (length (rows ref_df))) ;;
     ret (Some words_list, Some ref_df))
    (λ e,
       match e with
       | FileNotFoundError =>
           print MsgFileNotFound ;; print MsgMakeSure ;; ret (None, None)
       | _ => print (MsgLoadError e) ;; ret (None, None)
       end).

(** ** The dict of one word (lines 188-201) *)

(** Lines 189-193: the rows whose [word] cell equals the word, and the
    [definition] cell of the first of them.  [ref_df[ref_word_column]]
    raises when the frame has no [word] column, and
    [match.iloc[0][ref_def_column]] when a row matches and the frame has
    no [definition] column. *)
Definition reference_lookup (ref_df : option DataFrame) (word : cell)
  : result (option cell) :=
  match ref_df with
  | None => Ok None
  | Some df =>
      if bool_decide ("word" ∈ columns df) then
        match filter (λ row, py_eq (frame_cell row "word") word = true)
                (rows df) with
        | [] => Ok None
        | row :: _ =>
            if bool_decide ("definition" ∈ columns df)
            then Ok (Some (frame_cell row "definition"))
            else Raised KeyError
        end
      else Raised KeyError
  end.

(** The truth value of [reference_def] in [if reference_def:]: [None],
    the empty text, the number 0 and [False] are false; every other
    value, NaN included, is true. *)
Definition truthy (reference_def : option cell) : bool :=
  match reference_def with
  | None => false
  | Some (CStr s) => negb (bool_decide (s = []))
  | Some CNaN => true
  | Some (CNum x) => negb (bool_decide (x = 0%Qc))
  | Some (CInf _) => true
  | Some (CBool b) => b
  end.

(** Lines 195-201: the dict of one word. *)
Definition make_result (word : cell) (definition : str)
  (reference_def : option cell) : gmap string cell :=
  let result : gmap string cell :=
    {[ "word" := word; "generated_definition" := CStr definition ]} in
  match reference_def with
  | Some value =>
      if truthy reference_def then <["reference_definition" := value]> result
      else result
  | None => result
  end.

(** [pd.DataFrame(results)]: the columns are the keys in the order the
    dicts first show them, the rows are the dicts. *)
Definition pd_DataFrame (results : list (gmap string cell)) : DataFrame :=
  {| columns :=
       filter (λ key, Exists (λ r : gmap string cell, is_Some (r !! key)) results)
         ["word"; "generated_definition"; "reference_definition"];
     rows := results |}.

Definition output_filename : string := "generated_definitions_ollama.csv".

(** [df.to_csv(path, index=False)] *)
Definition to_csv (w : World) (df : DataFrame) (path : string) : M unit :=
  λ st,
    if output_writable w then
      (Ok tt, {| requests := requests st;
                 trace := trace st ++ [WroteCsv path df];
                 files := <[path := df]> (files st) |})
    else (Raised PermissionError, st).

(** The state in which the program starts. *)
Definition initial : State := {| requests := 0; trace := []; files := ∅ |}.

Section Program.

Context {U : Unicode}.

(** ** [generate_definition_ollama] (lines 52-124) *)

(** [x.strip()]: defined on strings only. *)
Definition py_strip (o : json) : result str :=
  match o with
  | JStr s => Ok (strip s)
  | _ => Raised AttributeError
  end.

(** Lines 107-108: [response.json().get('response', '').strip()] *)
Definition generated_text (response : response) : result str :=
  match response_json response with
  | Raised e => Raised e
  | Ok data =>
      match py_get data "response" (JStr []) with
      | Raised e => Raised e
      | Ok text => py_strip text
      end
  end.

(** Line 111: the call [clean_definition(word, definition)] with the word
    as the loop found it; [re.escape] raises for a word that is not a
    text. *)
Definition call_clean_definition (word : cell) (definition : str)
  : result str :=
  match word with
  | CStr text => Ok (clean_definition text definition)
  | _ => Raised TypeError
  end.

(** The string returned after the loop (line 124). *)
Definition failure_text (max_retries : Z) : str :=
  txt "Error: Failed to generate definition after "
  ++ txt (pretty max_retries) ++ txt " attempts".

(** The [try] statement of one iteration (lines 88-119): [Some d] when it
    executes [return d], [None] when control reaches line 121. *)
Definition attempt_once (w : World) (word : cell) (max_retries attempt : Z)
  : M (option str) :=
  try_except
    (response <- requests_post w generate_url word ;;
     if status_code response =? 200 then
       definition <- lift (generated_text response) ;;
       definition <- lift (call_clean_definition word definition) ;;
       ret (Some definition)
     else
       print (MsgHttpError (status_code response) word) ;;
       ret None)
    (λ e,
       if is_Timeout e then print (MsgTimeout word (attempt + 1) max_retries) ;; ret None
       else print (MsgGenError word (attempt + 1) max_retries e) ;; ret None).

(** The [for attempt in range(max_retries)] loop over the attempts still
    to make; [Some d] when an iteration returned [d]. *)
Fixpoint retry_loop (w : World) (word : cell) (max_retries : Z)
  (attempts : list Z) : M (option str) :=
  match attempts with
  | [] => ret None
  | attempt :: rest =>
      r <- attempt_once w word max_retries attempt ;;
      match r with
      | Some definition => ret (Some definition)
      | None =>
          (if attempt <? max_retries - 1 then time_sleep 2000 else ret tt) ;;
          retry_loop w word max_retries rest
      end
  end.

Definition generate_definition_ollama (w : World) (word : cell)
  (max_retries : Z) : M str :=
  r <- retry_loop w word max_retries (seqZ 0 max_retries) ;;
  match r with
  | Some definition => ret definition
  | None => ret (failure_text max_retries)
  end.

(** ** [generate_definitions] (lines 177-208) *)

(** The loop of lines 185-206; [results] is the list built so far.  The
    progress bar of [tqdm] only draws on the terminal and is left out. *)
Fixpoint for_words (w : World) (ref_df : option DataFrame)
  (words : list cell) (results : list (gmap string cell))
  : M (list (gmap string cell)) :=
  match words with
  | [] => ret results
  | word :: rest =>
      definition <- generate_definition_ollama w word 3 ;;
      reference_def <- lift (reference_lookup ref_df word) ;;
      let result := make_result word definition reference_def in
      time_sleep 500 ;;
      for_words w ref_df rest (results ++ [result])
  end.

Definition generate_definitions (w : World) (words_list : list cell)
  (ref_df : option DataFrame) : M DataFrame :=
  print (MsgGenerating (length words_list)) ;;
  results <- for_words w ref_df words_list [] ;;
  ret (pd_DataFrame results).

(** ** [main] (lines 212-234) *)

Definition main (w : World) : M unit :=
  print MsgBanner ;;
  print MsgRule ;;
  available <- check_ollama_connection w ;;
  if negb available then ret tt
  else
    loaded <- load_data w ;;
    match loaded.1 with
    | None => ret tt
    | Some words_list =>
        results_df <- generate_definitions w words_list loaded.2 ;;
        to_csv w results_df output_filename ;;
        print (MsgSaved output_filename) ;;
        print MsgComplete
    end.

End Program.

(** ** Vocabulary of the properties *)

(** [t] occurs in [s] as a contiguous run of characters. *)
Definition substring_of (t s : str) : Prop :=
  ∃ before after : str, s = before ++ t ++ after.

(** The events that come from probing the server and printing. *)
Definition probe_event (ev : event) : Prop :=
  match ev with
  | Printed _ | Requested (GET _) => True
  | _ => False
  end.

(** The state after an event was recorded. *)
Definition after_event (ev : event) (st : State) : State :=
  {| requests := requests st; trace := trace st ++ [ev]; files := files st |}.

(** The name a descriptor contributes to the list of names. *)
Definition name_of (descriptor : gmap string json) : json :=
  default (JStr []) (descriptor !! "name").

(** The probe finds the server, the list of models and the model: the
    version endpoint answers the [n]-th request with status 200, the
    listing answers the next with status 200 and a JSON object whose
    [models] are a list of JSON objects, and one of these objects has the
    configured model name as its [name]. *)
Definition probe_succeeds (w : World) (n : nat) : Prop :=
  ∃ (version_reply tags_reply : response) (data : gmap string json)
    (descriptors : list (gmap string json)) (descriptor : gmap string json),
    http w n (GET version_url) = Ok version_reply
    ∧ status_code version_reply = 200
    ∧ http w (S n) (GET tags_url) = Ok tags_reply
    ∧ status_code tags_reply = 200
    ∧ body tags_reply = Some (JDict data)
    ∧ data !! "models" = Some (JList (JDict <$> descriptors))
    ∧ descriptor ∈ descriptors
    ∧ descriptor !! "name" = Some (JStr MODEL_NAME).

(** The frame, if there is one, has the two columns of a reference
    table. *)
Definition reference_columns (ref_df : option DataFrame) : Prop :=
  match ref_df with
  | None => True
  | Some df => "word" ∈ columns df ∧ "definition" ∈ columns df
  end.

(** [d] is the definition cell of the first row of the table whose word
    cell is the text [word]. *)
Definition first_definition (ref_df : option DataFrame) (word : str)
  (d : cell) : Prop :=
  ∃ df before row after,
    ref_df = Some df
    ∧ rows df = before ++ row :: after
    ∧ Forall (λ r : gmap string cell, r !! "word" ≠ Some (CStr word)) before
    ∧ row !! "word" = Some (CStr word)
    ∧ frame_cell row "definition" = d.

(** The cell counts as true in an [if]: it is not the empty text, not the
    number 0 and not [False]. *)
Definition counts_as_true (d : cell) : Prop :=
  d ≠ CStr [] ∧ d ≠ CNum 0%Qc ∧ d ≠ CBool false.

(** The lookup of the word cannot be done in the frame: the frame has no
    column [word], or a row carries the word and the frame has no column
    [definition]. *)
Definition lookup_fails (ref_df : option DataFrame) (word : cell) : Prop :=
  ∃ df,
    ref_df = Some df
    ∧ ("word" ∉ columns df
       ∨ (("definition" ∉ columns df)
          ∧ (∃ row, row ∈ rows df
                    ∧ py_eq (frame_cell row "word") word = true))).

(** What the lookup of lines 189-193 gives when it does not raise. *)
Definition lookup_value (ref_df : option DataFrame) (word : cell)
  : option cell :=
  match reference_lookup ref_df word with
  | Ok found => found
  | Raised _ => None
  end.

(** The records the loop appends, one per word and in the order of the
    words, given the definitions generated for them. *)
Definition records_of (ref_df : option DataFrame) (words : list cell)
  (defs : list str) : list (gmap string cell) :=
  zip_with (λ word d, make_result word d (lookup_value ref_df word))
    words defs.

Section Vocabulary.

Context {U : Unicode}.

(** The pattern [re.escape(word)] matches at the start of [t] under
    [re.IGNORECASE]. *)
Definition begins_with_word (word t : str) : bool :=
  match re_match true (re_escape word) t with
  | Some _ => true
  | None => false
  end.

(** [W] is the word as [re.IGNORECASE] reads it: [W] has as many
    characters as [word], and each character of [word], taken as a
    literal of a pattern, matches the character of [W] at its place. *)
Definition reads_as_word (word W : str) : Prop :=
  Forall2 (λ p c, ci_match p c = true) word W.

(** No rule of [clean_definition] finds anything to remove at the start
    of [t]: [t] begins neither with the word in any case (as
    [re.IGNORECASE] matches it), nor with a colon, nor with a digit, nor,
    in lower case, with one of the unwanted prefixes. *)
Definition nothing_to_clean (word t : str) : bool :=
  negb (begins_with_word word t)
  && negb (startswith t [colon])
  && match t with c :: _ => negb (isdigit c) | [] => true end
  && forallb (λ prefix, negb (startswith (str_lower t) prefix)) unwanted_prefixes.

(** One generation attempt fails: the request raises, or the status is
    not 200, or reading the text out of the reply raises. *)
Definition attempt_fails (reply : result response) : Prop :=
  match reply with
  | Raised _ => True
  | Ok response =>
      status_code response ≠ 200 ∨ ∃ e, generated_text response = Raised e
  end.

(** What one attempt gives for a reply: the cleaned text of a reply with
    status 200 and a readable text when the word is a text, nothing
    otherwise. *)
Definition attempt_result (word : cell) (reply : result response)
  : option str :=
  match reply with
  | Raised _ => None
  | Ok response =>
      if status_code response =? 200 then
        match generated_text response with
        | Ok text =>
            match call_clean_definition word text with
            | Ok cleaned => Some cleaned
            | Raised _ => None
            end
        | Raised _ => None
        end
      else None
  end.

End Vocabulary.

(** The requests and the pauses among a run of events, in order. *)
Definition requests_of (evs : list event) : list request :=
  evs ≫= λ ev, match ev with Requested r => [r] | _ => [] end.

Definition sleeps_of (evs : list event) : list Z :=
  evs ≫= λ ev, match ev with Slept ms => [ms] | _ => [] end.

(** The files read among a run of events, in order. *)
Definition reads_of (evs : list event) : list string :=
  evs ≫= λ ev, match ev with ReadCsv path => [path] | _ => [] end.

(** The frames written among a run of events, in order. *)
Definition writes_of (evs : list event) : list (string * DataFrame) :=
  evs ≫= λ ev, match ev with WroteCsv path df => [(path, df)] | _ => [] end.

(** [st'] comes after [st] by the events [evs], which account for every
    request made in between. *)
Definition extends (st st' : State) (evs : list event) : Prop :=
  trace st' = trace st ++ evs
  ∧ requests st' = (requests st + length (requests_of evs))%nat.

(** The pauses of the retry loop after the failed attempts [attempts]. *)
Definition retry_pauses (max_retries : Z) (attempts : list Z) : list Z :=
  attempts ≫= λ attempt, if attempt <? max_retries - 1 then [2000] else [].


(** Both input files can be read, the word file has its column [word],
    whose cells are [words], and the reference file gives [ref]. *)
Definition inputs_load (w : World) (words : list cell) (ref : DataFrame)
  : Prop :=
  ∃ wf, word_csv w = Ok wf ∧ "word" ∈ columns wf
        ∧ words = (λ row, frame_cell row "word") <$> rows wf
        ∧ reference_csv w = Ok ref.

(** The version endpoint answers the [n]-th request with status 200. *)
Definition version_ok (w : World) (n : nat) : bool :=
  match http w n (GET version_url) with
  | Ok reply => status_code reply =? 200
  | Raised _ => false
  end.

(** ** Frames and worlds to run the program in *)

(** A reference table of texts: the frame [pd.read_csv] gives for a file
    with the header [word,definition] and one line per entry. *)
Definition reference_table (entries : list (str * str)) : DataFrame :=
  {| columns := ["word"; "definition"];
     rows := (λ entry : str * str,
                {[ "word" := CStr entry.1; "definition" := CStr entry.2 ]})
             <$> entries |}.

(** A word list: the frame of a file with the header [word]. *)
Definition word_table (words : list str) : DataFrame :=
  {| columns := ["word"];
     rows := (λ word : str, {[ "word" := CStr word ]}) <$> words |}.

(** A reference table in which the word "meja" has two rows. *)
Definition two_rows_for_meja : DataFrame :=
  reference_table
    [(txt "apel", txt "buah");
     (txt "meja", txt "perabot datar berkaki");
     (txt "meja", txt "papan")].

(** The frame of a reference file with the two lines [word,definition]
    and [meja,0]: the definition column is a column of numbers. *)
Definition meja_defined_as_zero : DataFrame :=
  {| columns := ["word"; "definition"];
     rows := [ {[ "word" := CStr (txt "meja"); "definition" := CNum 0%Qc ]} ] |}.

(** The frame of a reference file whose header is [kata,arti]: it has
    neither of the two columns. *)
Definition other_headers : DataFrame :=
  {| columns := ["kata"; "arti"];
     rows := [ {[ "kata" := CStr (txt "meja"); "arti" := CStr (txt "perabot") ]} ] |}.

(** A listing whose only descriptor has no name. *)
Definition listing_without_name : gmap string json :=
  {[ "models" := JList [JDict {[ "size" := JNum 3 ]}] ]}.

(** A listing with a descriptor without name before the descriptor of the
    configured model. *)
Definition listing_nameless_then_model : json :=
  JDict {[ "models" :=
             JList [JDict {[ "size" := JNum 3 ]};
                    JDict {[ "name" := JStr MODEL_NAME ]}] ]}.

(** No server and no input files. *)
Definition offline : World :=
  {| http := λ _ _, Raised ConnectionError;
     word_csv := Raised FileNotFoundError;
     reference_csv := Raised FileNotFoundError;
     output_writable := true |}.

(** A server whose first reply has status 500, whose second request times
    out and whose later replies have status 200 and a body that is not
    JSON. *)
Definition flaky : World :=
  {| http := λ n _,
       match n with
       | O => Ok (Response 500 None)
       | S O => Raised ReadTimeout
       | _ => Ok (Response 200 None)
       end;
     word_csv := Raised FileNotFoundError;
     reference_csv := Raised FileNotFoundError;
     output_writable := true |}.

(** A running server that answers the listing of models with the given
    body and does not generate. *)
Definition server_listing (tags_body : json) : World :=
  {| http := λ _ r,
       match r with
       | GET url =>
           if String.eqb url tags_url then Ok (Response 200 (Some tags_body))
           else Ok (Response 200 (Some (JDict ∅)))
       | POST _ _ => Raised ReadTimeout
       end;
     word_csv := Raised FileNotFoundError;
     reference_csv := Raised FileNotFoundError;
     output_writable := true |}.

(** A server that fails twice and then generates a text for "kudus". *)
Definition third_time_lucky : World :=
  {| http := λ n _,
       match n with
       | O => Ok (Response 503 None)
       | S O => Raised ReadTimeout
       | _ => Ok (Response 200
                    (Some (JDict {[ "response" := JStr (txt " Kudus 2. suci ") ]})))
       end;
     word_csv := Raised FileNotFoundError;
     reference_csv := Raised FileNotFoundError;
     output_writable := true |}.

(** A server whose replies to generation requests carry the given JSON
    object, with the configured model installed, the words "meja" and
    "kudus" in the word file and the given reference frame; the output
    file can be written or not. *)
Definition working (generated : gmap string json) (ref : DataFrame)
  (writable : bool) : World :=
  {| http := λ _ r,
       match r with
       | GET url =>
           if String.eqb url tags_url
           then Ok (Response 200 (Some listing_nameless_then_model))
           else Ok (Response 200 (Some (JDict ∅)))
       | POST _ _ => Ok (Response 200 (Some (JDict generated)))
       end;
     word_csv := Ok (word_table [txt "meja"; txt "kudus"]);
     reference_csv := Ok ref;
     output_writable := writable |}.

(** * Properties *)

(** ** Stripping and matching only remove characters *)

Section Cleaning.

Context {U : Unicode}.

Implicit Types (s t rest word : str) (r : regex) (ic : bool).

Lemma lstrip_suffix s : lstrip s `suffix_of` s.
Proof.
  induction s as [|c s IH]; simpl; [done|].
  destruct (isspace c); [by apply suffix_cons_r | done].
Qed.

Lemma rstrip_prefix s : rstrip s `prefix_of` s.
Proof.
  induction s as [|c s IH]; simpl; [done|].
  destruct (rstrip s) as [|a r'] eqn:E.
  - destruct (isspace c); [apply prefix_nil | apply prefix_cons, prefix_nil].
  - by apply prefix_cons.
Qed.

Lemma substring_of_refl s : substring_of s s.
Proof. exists [], []. by rewrite app_nil_r. Qed.

Lemma substring_of_trans s t u :
  substring_of s t → substring_of t u → substring_of s u.
Proof.
  intros (a & b & ->) (c & d & ->).
  exists (c ++ a), (b ++ d). by rewrite !app_assoc.
Qed.

Lemma suffix_substring t s : t `suffix_of` s → substring_of t s.
Proof. intros [k ->]. exists k, []. by rewrite app_nil_r. Qed.

Lemma prefix_substring t s : t `prefix_of` s → substring_of t s.
Proof. intros [k ->]. by exists [], k. Qed.

Lemma substring_of_length t s :
  substring_of t s → (length t ≤ length s)%nat.
Proof. intros (a & b & ->). rewrite !length_app. lia. Qed.

Lemma strip_substring s : substring_of (strip s) s.
Proof.
  eapply substring_of_trans.
  - apply prefix_substring, rstrip_prefix.
  - apply suffix_substring, lstrip_suffix.
Qed.

Lemma match_star_suffix ic a (k : str → option str) s rest :
  (∀ s' rest', k s' = Some rest' → rest' `suffix_of` s') →
  match_star ic a k s = Some rest → rest `suffix_of` s.
Proof.
  intros Hk. induction s as [|c s IH]; simpl; [by apply Hk|].
  destruct (atom_match ic a c); [|by apply Hk].
  destruct (match_star ic a k s) as [x|] eqn:E; simpl.
  - intros [= ->]. by apply suffix_cons_r, IH.
  - by apply Hk.
Qed.

Lemma re_match_suffix ic r s rest :
  re_match ic r s = Some rest → rest `suffix_of` s.
Proof.
  revert s rest. induction r as [|[a|a|a|a] r IH]; intros s rest; simpl.
  - by intros [= ->].
  - destruct s as [|c s]; [done|].
    destruct (atom_match ic a c); [|done].
    intros H. by apply suffix_cons_r, IH.
  - apply match_star_suffix, IH.
  - destruct s as [|c s]; [done|].
    destruct (atom_match ic a c); [|done].
    intros H. eapply suffix_cons_r, match_star_suffix; [apply IH | done].
  - destruct s as [|c s]; [apply IH|].
    destruct (atom_match ic a c); [|apply IH].
    destruct (re_match ic r s) as [x|] eqn:E; simpl.
    + intros [= ->]. by apply suffix_cons_r, IH.
    + apply IH.
Qed.

Lemma re_sub_suffix ic r s : re_sub ic r s `suffix_of` s.
Proof.
  unfold re_sub. destruct (re_match ic r s) eqn:E; [|done].
  by eapply re_match_suffix.
Qed.

Lemma strip_re_sub_substring ic r s : substring_of (strip (re_sub ic r s)) s.
Proof.
  eapply substring_of_trans; [apply strip_substring|].
  apply suffix_substring, re_sub_suffix.
Qed.

Lemma strip_prefixes_substring (prefixes : list str) s :
  substring_of
    (fold_left
       (λ definition prefix,
          if startswith (str_lower definition) prefix
          then strip (drop (length prefix) definition)
          else definition)
       prefixes s) s.
Proof.
  revert s. induction prefixes as [|p ps IH]; intros s; simpl.
  - apply substring_of_refl.
  - eapply substring_of_trans; [apply IH|].
    destruct (startswith (str_lower s) p); [|apply substring_of_refl].
    eapply substring_of_trans; [apply strip_substring|].
    apply suffix_substring, suffix_drop.
Qed.

Lemma clean_definition_is_substring word definition :
  substring_of (clean_definition word definition) definition.
Proof.
  unfold clean_definition.
  eapply substring_of_trans; [apply strip_prefixes_substring|].
  eapply substring_of_trans; [apply strip_re_sub_substring|].
  eapply substring_of_trans;
    [|eapply substring_of_trans;
        [apply strip_re_sub_substring | apply strip_re_sub_substring]].
  match goal with |- context [if ?b then _ else _] => destruct b end.
  - apply strip_re_sub_substring.
  - apply substring_of_refl.
Qed.

(** C9.  For every word and every text, the cleaned text is a contiguous
    substring of the text: cleaning only removes characters at the two
    ends, and its result is never longer than its input. *)
Theorem clean_definition_substring word definition :
  substring_of (clean_definition word definition) definition
  ∧ (length (clean_definition word definition) ≤ length definition)%nat.
Proof.
  split; [apply clean_definition_is_substring|].
  apply substring_of_length, clean_definition_is_substring.
Qed.

(** ** Text that is already clean *)

Lemma rstrip_cons c s :
  rstrip (c :: s) =
  match rstrip s with
  | [] => if isspace c then [] else [c]
  | r => c :: r
  end.
Proof. reflexivity. Qed.

Lemma rstrip_idemp s : rstrip (rstrip s) = rstrip s.
Proof.
  induction s as [|c s IH]; [done|].
  rewrite (rstrip_cons c s).
  destruct (rstrip s) as [|a r'] eqn:E.
  - destruct (isspace c) eqn:Ec; [done|]. rewrite rstrip_cons. simpl. by rewrite Ec.
  - by rewrite rstrip_cons, IH.
Qed.

Lemma lstrip_rstrip_lstrip s : lstrip (rstrip (lstrip s)) = rstrip (lstrip s).
Proof.
  induction s as [|c s IH]; [done|]. simpl.
  destruct (isspace c) eqn:Ec; [done|].
  rewrite rstrip_cons, Ec. destruct (rstrip s); simpl; by rewrite Ec.
Qed.

Lemma strip_idemp s : strip (strip s) = strip s.
Proof. unfold strip. by rewrite lstrip_rstrip_lstrip, rstrip_idemp. Qed.

Lemma strip_prefixes_stripped (prefixes : list str) s :
  strip s = s →
  let out :=
    fold_left
      (λ definition prefix,
         if startswith (str_lower definition) prefix
         then strip (drop (length prefix) definition)
         else definition)
      prefixes s in
  strip out = out.
Proof.
  revert s. induction prefixes as [|p ps IH]; intros s Hs; simpl; [done|].
  apply IH. destruct (startswith (str_lower s) p); [apply strip_idemp | done].
Qed.

(** The result of [clean_definition] has no white space at its ends. *)
Lemma clean_definition_stripped word definition :
  strip (clean_definition word definition) = clean_definition word definition.
Proof.
  unfold clean_definition. apply strip_prefixes_stripped, strip_idemp.
Qed.

Lemma re_match_app_Some ic word r t rest :
  re_match ic (re_escape word ++ r) t = Some rest →
  ∃ mid, re_match ic (re_escape word) t = Some mid.
Proof.
  revert t. induction word as [|a word IH]; intros t; [simpl; by eauto|].
  unfold re_escape. cbn [map app re_match]. fold (re_escape word).
  destruct t as [|c t]; [done|].
  destruct (atom_match ic (Lit a) c); [|done].
  apply IH.
Qed.

Lemma re_sub_word_no_match word r t :
  begins_with_word word t = false →
  re_sub true (re_escape word ++ r) t = t.
Proof.
  intros H. unfold re_sub.
  destruct (re_match true (re_escape word ++ r) t) eqn:E; [|done].
  apply re_match_app_Some in E as [mid E].
  unfold begins_with_word in H. by rewrite E in H.
Qed.

Lemma re_sub_colon_no_match r t :
  startswith t [colon] = false → re_sub false (One (Lit colon) :: r) t = t.
Proof.
  unfold re_sub. destruct t as [|c t]; [done|].
  cbn [re_match atom_match startswith].
  by destruct (colon =? c)%N.
Qed.

Lemma re_sub_digits_no_match r t :
  match t with c :: _ => negb (isdigit c) | [] => true end = true →
  re_sub false (Plus Digit :: r) t = t.
Proof.
  unfold re_sub. destruct t as [|c t]; simpl; [done|].
  by destruct (isdigit c).
Qed.

Lemma strip_prefixes_no_match (prefixes : list str) t :
  forallb (λ prefix, negb (startswith (str_lower t) prefix)) prefixes = true →
  fold_left
    (λ definition prefix,
       if startswith (str_lower definition) prefix
       then strip (drop (length prefix) definition)
       else definition)
    prefixes t = t.
Proof.
  induction prefixes as [|p ps IH]; simpl; [done|].
  rewrite andb_true_iff, negb_true_iff. intros [-> H]. by apply IH.
Qed.

(** Text without white space at its ends and with nothing to remove at
    its start is left as it is. *)
Lemma clean_definition_fixed word t :
  strip t = t → nothing_to_clean word t = true → clean_definition word t = t.
Proof.
  unfold nothing_to_clean. rewrite !andb_true_iff, !negb_true_iff.
  intros Hs [[[Hw Hc] Hd] Hp]. unfold clean_definition.
  rewrite re_sub_word_no_match, Hs by done.
  rewrite re_sub_colon_no_match, Hs by done.
  rewrite re_sub_word_no_match, Hs by done.
  assert ((if startswith (str_lower t) (str_lower word) then t else t) = t)
    as Hif.
  { by destruct (startswith (str_lower t) (str_lower word)). }
  rewrite Hif.
  rewrite re_sub_digits_no_match, Hs by done.
  by apply strip_prefixes_no_match.
Qed.

(** C2, as the code has it.  Cleaning a cleaned text again changes nothing
    when the cleaned text begins neither with the word in any case (as
    [re.IGNORECASE] matches it), nor with a colon, nor with a digit, nor,
    in lower case, with one of the unwanted prefixes.  This holds for
    every table of characters. *)
Theorem clean_definition_idempotent_when_clean word s :
  nothing_to_clean word (clean_definition word s) = true →
  clean_definition word (clean_definition word s) = clean_definition word s.
Proof.
  intros H. apply clean_definition_fixed; [|done].
  apply clean_definition_stripped.
Qed.

End Cleaning.

(** ** The retry loop *)

Section Generation.

Context {U : Unicode}.

Variable w : World.

Implicit Types (st : State) (word : cell) (max_retries attempt : Z).

Ltac run :=
  unfold attempt_once, try_except, bind, requests_post, requests_get, send,
    lift, ret, print, time_sleep, emit; simpl.

(** One attempt never raises, makes one request and writes no file. *)
Lemma attempt_once_returns word max_retries attempt st :
  ∃ r st', attempt_once w word max_retries attempt st = (Ok r, st')
           ∧ requests st' = S (requests st) ∧ files st' = files st.
Proof.
  run. destruct (http w (requests st) (POST generate_url word)) as [resp|e]; simpl.
  - destruct (status_code resp =? 200); simpl; [|by eauto].
    destruct (generated_text resp) as [d|e]; simpl.
    + destruct (call_clean_definition word d) as [c|e]; simpl; [by eauto|].
      destruct (is_Timeout e); simpl; by eauto.
    + destruct (is_Timeout e); simpl; by eauto.
  - destruct (is_Timeout e); simpl; by eauto.
Qed.

(** A failing attempt falls through to the end of the loop body. *)
Lemma attempt_once_fails word max_retries attempt st :
  attempt_fails (http w (requests st) (POST generate_url word)) →
  ∃ st', attempt_once w word max_retries attempt st = (Ok None, st')
         ∧ requests st' = S (requests st) ∧ files st' = files st.
Proof.
  run. destruct (http w (requests st) (POST generate_url word)) as [resp|e]; simpl.
  - intros H. destruct (status_code resp =? 200) eqn:E; simpl; [|by eauto].
    apply Z.eqb_eq in E. destruct H as [H|[e H]]; [done|].
    rewrite H. simpl. destruct (is_Timeout e); simpl; by eauto.
  - intros _. destruct (is_Timeout e); simpl; by eauto.
Qed.

Lemma pause_returns max_retries attempt st :
  ∃ st', (if attempt <? max_retries - 1 then time_sleep 2000 else ret tt) st
         = (Ok tt, st')
         ∧ requests st' = requests st ∧ files st' = files st.
Proof. destruct (attempt <? max_retries - 1); run; by eauto. Qed.

Lemma retry_loop_returns word max_retries attempts st :
  ∃ r st', retry_loop w word max_retries attempts st = (Ok r, st')
           ∧ files st' = files st.
Proof.
  revert st. induction attempts as [|a rest IH]; intros st; simpl.
  - by exists None, st.
  - unfold bind at 1.
    destruct (attempt_once_returns word max_retries a st) as (r & st1 & -> & _ & Hf1).
    destruct r as [d|]; [by exists (Some d), st1|].
    unfold bind at 1.
    destruct (pause_returns max_retries a st1) as (st2 & -> & _ & Hf2).
    destruct (IH st2) as (r & st3 & -> & Hf3).
    exists r, st3. split; [done | congruence].
Qed.

Lemma retry_loop_fails word max_retries attempts st :
  (∀ i, (i < length attempts)%nat →
        attempt_fails (http w (requests st + i)%nat (POST generate_url word))) →
  ∃ st', retry_loop w word max_retries attempts st = (Ok None, st')
         ∧ requests st' = (requests st + length attempts)%nat
         ∧ files st' = files st.
Proof.
  revert st. induction attempts as [|a rest IH]; intros st H; simpl.
  - exists st. by rewrite Nat.add_0_r.
  - unfold bind at 1.
    destruct (attempt_once_fails word max_retries a st) as (st1 & -> & Hr1 & Hf1).
    { specialize (H 0%nat). rewrite Nat.add_0_r in H. apply H. simpl. lia. }
    unfold bind at 1.
    destruct (pause_returns max_retries a st1) as (st2 & -> & Hr2 & Hf2).
    destruct (IH st2) as (st3 & -> & Hr3 & Hf3).
    { intros i Hi. rewrite Hr2, Hr1.
      replace (S (requests st) + i)%nat with (requests st + S i)%nat by lia.
      apply H. simpl. lia. }
    exists st3. split; [done|]. split; [lia | congruence].
Qed.

(** [generate_definition_ollama] never raises. *)
Lemma generate_definition_ollama_returns word max_retries st :
  ∃ d st', generate_definition_ollama w word max_retries st = (Ok d, st')
           ∧ files st' = files st.
Proof.
  unfold generate_definition_ollama, bind.
  destruct (retry_loop_returns word max_retries (seqZ 0 max_retries) st)
    as (r & st' & -> & Hf).
  destruct r as [d|]; unfold ret; by eauto.
Qed.

Lemma generate_definition_ollama_fails word st :
  (∀ i, (i < 3)%nat →
        attempt_fails (http w (requests st + i)%nat (POST generate_url word))) →
  ∃ st', generate_definition_ollama w word 3 st = (Ok (failure_text 3), st')
         ∧ requests st' = (requests st + 3)%nat.
Proof.
  intros H. unfold generate_definition_ollama, bind.
  destruct (retry_loop_fails word 3 (seqZ 0 3) st) as (st' & -> & Hr & _); [done|].
  exists st'. by split.
Qed.

(** ** The batch loop *)

Lemma make_result_word word d reference_def :
  make_result word d reference_def !! "word" = Some word.
Proof.
  unfold make_result. destruct reference_def as [value|]; [|by simplify_map_eq].
  destruct (truthy (Some value)); by simplify_map_eq.
Qed.

Lemma make_result_generated word d reference_def :
  make_result word d reference_def !! "generated_definition" = Some (CStr d).
Proof.
  unfold make_result. destruct reference_def as [value|]; [|by simplify_map_eq].
  destruct (truthy (Some value)); by simplify_map_eq.
Qed.

Lemma make_result_reference word d reference_def :
  make_result word d reference_def !! "reference_definition"
  = if truthy reference_def then reference_def else None.
Proof.
  unfold make_result. destruct reference_def as [value|]; [|by simplify_map_eq].
  destruct (truthy (Some value)); by simplify_map_eq.
Qed.

(** With the two columns in place the lookup does not raise. *)
Lemma reference_lookup_columns ref_df word :
  reference_columns ref_df →
  reference_lookup ref_df word = Ok (lookup_value ref_df word).
Proof.
  unfold lookup_value, reference_lookup.
  destruct ref_df as [df|]; [|done]. intros [Hw Hd].
  rewrite !bool_decide_eq_true_2 by done.
  by destruct (filter _ (rows df)).
Qed.

Lemma for_words_returns ref_df (words : list cell)
  (results : list (gmap string cell)) st :
  reference_columns ref_df →
  ∃ defs st',
    for_words w ref_df words results st
    = (Ok (results ++ records_of ref_df words defs), st')
    ∧ length defs = length words ∧ files st' = files st.
Proof.
  intros Hcols. revert results st.
  induction words as [|word rest IH]; intros results st; simpl.
  - exists [], st. unfold ret, records_of. by rewrite app_nil_r.
  - unfold bind at 1.
    destruct (generate_definition_ollama_returns word 3 st) as (d & st1 & -> & Hf1).
    unfold bind at 1, lift. rewrite reference_lookup_columns by done.
    unfold bind at 1, time_sleep, emit. simpl.
    match goal with |- context [for_words w ref_df rest ?acc ?s] =>
      destruct (IH acc s) as (defs & st2 & -> & Hl & Hf2) end.
    exists (d :: defs), st2. simpl in *.
    rewrite <- app_assoc. split; [done|]. split; [lia | congruence].
Qed.

End Generation.

(** ** The records of a batch *)

Section Batch.

Context {U : Unicode}.

Variable w : World.

Implicit Types (st : State) (ref_df : option DataFrame).

Lemma records_of_Forall2 ref_df (words : list cell) (defs : list str) :
  length defs = length words →
  Forall2
    (λ word record,
       ∃ d, record = make_result word d (lookup_value ref_df word))
    words (records_of ref_df words defs).
Proof.
  revert defs. induction words as [|word rest IH]; intros [|d defs] Hl;
    simpl in *; try done; try constructor.
  - by exists d.
  - apply IH. lia.
Qed.

(** With the two columns in place the batch never raises, writes no file,
    and its rows are the records of the words, in order. *)
Lemma generate_definitions_returns (words : list cell) ref_df st :
  reference_columns ref_df →
  ∃ df st',
    generate_definitions w words ref_df st = (Ok df, st')
    ∧ files st' = files st
    ∧ Forall2
        (λ word record,
           ∃ d, record = make_result word d (lookup_value ref_df word))
        words (rows df).
Proof.
  intros Hcols. unfold generate_definitions, bind, print, emit. simpl.
  match goal with |- context [for_words w ref_df words [] ?s] =>
    destruct (for_words_returns w ref_df words [] s Hcols)
      as (defs & st' & -> & Hl & Hf) end.
  eexists _, st'. split; [reflexivity|]. split; [done|].
  simpl. by apply records_of_Forall2.
Qed.

Lemma records_word_column ref_df (words : list cell)
  (rs : list (gmap string cell)) :
  Forall2
    (λ word record,
       ∃ d, record = make_result word d (lookup_value ref_df word))
    words rs →
  (λ record : gmap string cell, record !! "word") <$> rs = Some <$> words.
Proof.
  induction 1 as [|word record ws rs' [d ->] _ IH]; [done|].
  rewrite !fmap_cons, make_result_word. by f_equal.
Qed.

(** *** The lookup, row by row *)

Lemma py_eq_text (c : cell) (word : str) :
  py_eq c (CStr word) = true ↔ c = CStr word.
Proof.
  destruct c as [s| | | |]; simpl; try (split; [done | by intros [=]]).
  rewrite bool_decide_eq_true. split; [by intros -> | by intros [= ->]].
Qed.

Lemma row_matches_text (row : gmap string cell) (word : str) :
  py_eq (frame_cell row "word") (CStr word) = true
  ↔ row !! "word" = Some (CStr word).
Proof.
  rewrite py_eq_text. unfold frame_cell.
  destruct (row !! "word") as [c|]; simpl; split; try done.
  - by intros ->.
  - by intros [= ->].
Qed.

Lemma filter_first {A} (P : A → Prop) `{∀ x, Decision (P x)}
  (l : list A) x xs :
  filter P l = x :: xs →
  ∃ before after,
    l = before ++ x :: after ∧ Forall (λ y, ¬ P y) before ∧ P x.
Proof.
  induction l as [|y l IH]; [done|].
  destruct (decide (P y)) as [Hy|Hy].
  - rewrite filter_cons_True by done. intros [= -> _].
    by exists [], l.
  - rewrite filter_cons_False by done. intros Hf.
    destruct (IH Hf) as (before & after & -> & Hb & Hx).
    exists (y :: before), after. split; [done|]. split; [by constructor|done].
Qed.

Lemma filter_first_inv {A} (P : A → Prop) `{∀ x, Decision (P x)}
  (before after : list A) x :
  Forall (λ y, ¬ P y) before → P x →
  filter P (before ++ x :: after) = x :: filter P after.
Proof.
  intros Hb Hx. rewrite filter_app.
  replace (filter P before) with (@nil A).
  - simpl. by rewrite filter_cons_True.
  - symmetry. induction Hb as [|y ys Hy _ IH]; [done|].
    by rewrite filter_cons_False.
Qed.

(** For a text word and a table with its two columns the lookup finds
    exactly the definition cell of the first row that carries the
    word. *)
Lemma lookup_value_first_definition ref_df (word : str) (d : cell) :
  reference_columns ref_df →
  lookup_value ref_df (CStr word) = Some d ↔ first_definition ref_df word d.
Proof.
  unfold lookup_value, reference_lookup, first_definition.
  destruct ref_df as [df|]; simpl.
  2: { intros _. split; [done | by intros (? & ? & ? & ? & ? & _)]. }
  intros [Hw Hd]. rewrite !bool_decide_eq_true_2 by done.
  destruct (filter _ (rows df)) as [|row found] eqn:E; split.
  - done.
  - intros (df' & before & row & after & [= <-] & Hrows & Hb & Hrow & _).
    rewrite Hrows, filter_first_inv in E; [done| |by apply row_matches_text].
    eapply Forall_impl; [exact Hb|]. intros r Hr. by rewrite row_matches_text.
  - intros [= <-].
    apply filter_first in E as (before & after & Hrows & Hb & Hrow).
    exists df, before, row, after. split; [done|]. split; [done|].
    split; [|split; [by apply row_matches_text | done]].
    eapply Forall_impl; [exact Hb|]. intros r Hr. by rewrite <- row_matches_text.
  - intros (df' & before & row' & after & [= <-] & Hrows & Hb & Hrow & <-).
    rewrite Hrows, filter_first_inv in E;
      [|eapply Forall_impl; [exact Hb|]; intros r Hr; by rewrite row_matches_text
       |by apply row_matches_text].
    by injection E as -> _.
Qed.

Lemma truthy_counts_as_true (d : cell) :
  truthy (Some d) = true ↔ counts_as_true d.
Proof.
  unfold counts_as_true.
  destruct d as [s| |x|p|[]]; simpl;
    rewrite ?negb_true_iff, ?bool_decide_eq_false.
  - split; [intros H; by repeat split; try intros [= ->] | intros (H & _); by intros ->].
  - by split.
  - split; [intros H; by repeat split; try intros [= ->] | intros (_ & H & _); by intros ->].
  - by split.
  - by split.
  - split; [done | by intros (_ & _ & H)].
Qed.

(** C3.  For a word list that is not empty and a reference table with its
    two columns (or none at all) the batch returns a frame with exactly
    one row per word, and the words of the rows are the input words in
    the input order. *)
Theorem generate_definitions_one_row_per_word (words : list cell) ref_df st :
  words ≠ [] →
  reference_columns ref_df →
  ∃ df st',
    generate_definitions w words ref_df st = (Ok df, st')
    ∧ length (rows df) = length words
    ∧ (λ record : gmap string cell, record !! "word") <$> rows df
      = Some <$> words.
Proof.
  intros _ Hcols.
  destruct (generate_definitions_returns words ref_df st Hcols)
    as (df & st' & -> & _ & H).
  exists df, st'. split; [done|]. split.
  - symmetry. by eapply Forall2_length.
  - by eapply records_word_column.
Qed.

(** C1, as the code has it.  The record of a word has the field
    [reference_definition] exactly when some row of the reference table
    carries the word and the definition cell of the first such row counts
    as true in Python (it is not the number 0, not [False] and not an
    empty text; the NaN of an empty cell counts as true); the field then
    holds that cell. *)
Theorem reference_field_iff_first_match_true (words : list str) ref_df st :
  reference_columns ref_df →
  ∃ df st',
    generate_definitions w (CStr <$> words) ref_df st = (Ok df, st')
    ∧ Forall2
        (λ (word : str) (record : gmap string cell),
           ∀ d, record !! "reference_definition" = Some d
                ↔ first_definition ref_df word d ∧ counts_as_true d)
        words (rows df).
Proof.
  intros Hcols.
  destruct (generate_definitions_returns (CStr <$> words) ref_df st Hcols)
    as (df & st' & -> & _ & H).
  exists df, st'. split; [done|].
  apply Forall2_fmap_l in H.
  eapply Forall2_impl; [exact H|].
  intros word record [d0 ->] d. rewrite make_result_reference.
  rewrite <- lookup_value_first_definition, <- truthy_counts_as_true by done.
  destruct (lookup_value ref_df (CStr word)) as [found|] eqn:E.
  - destruct (truthy (Some found)) eqn:Ht.
    + split; [by intros [= <-] | by intros [[= <-] _]].
    + split; [done | intros [[= <-] Hd]; congruence].
  - split; [done | by intros [? _]].
Qed.

(** C6.  When several rows of the reference table carry the word, the
    lookup gives the definition of the first of them, and the record of
    the word holds that definition (or no reference at all when that
    definition counts as false), never the definition of a later row. *)
Theorem first_matching_row_wins (words : list str) (ref : DataFrame)
  (before after : list (gmap string cell)) (row : gmap string cell)
  (word : str) (i : nat) st :
  "word" ∈ columns ref →
  "definition" ∈ columns ref →
  rows ref = before ++ row :: after →
  Forall (λ r : gmap string cell, r !! "word" ≠ Some (CStr word)) before →
  row !! "word" = Some (CStr word) →
  words !! i = Some word →
  reference_lookup (Some ref) (CStr word)
  = Ok (Some (frame_cell row "definition"))
  ∧ ∃ df st' record,
      generate_definitions w (CStr <$> words) (Some ref) st = (Ok df, st')
      ∧ rows df !! i = Some record
      ∧ record !! "reference_definition"
        = if truthy (Some (frame_cell row "definition"))
          then Some (frame_cell row "definition") else None.
Proof.
  intros Hw Hd Hrows Hb Hr Hi.
  assert (reference_columns (Some ref)) as Hcols by done.
  assert (lookup_value (Some ref) (CStr word)
          = Some (frame_cell row "definition")) as Hl.
  { apply lookup_value_first_definition; [done|].
    by exists ref, before, row, after. }
  split; [by rewrite reference_lookup_columns, Hl|].
  destruct (generate_definitions_returns (CStr <$> words) (Some ref) st Hcols)
    as (df & st' & -> & _ & H).
  assert ((CStr <$> words) !! i = Some (CStr word)) as Hi'
    by by rewrite list_lookup_fmap, Hi.
  destruct (Forall2_lookup_l _ _ _ _ _ H Hi') as (record & Hrec & d & ->).
  eexists df, st', _. split; [done|]. split; [done|].
  by rewrite make_result_reference, Hl.
Qed.

(** C4.  When the three attempts for a word fail, whether by a status
    other than 200, a timeout or another exception, the generation
    returns the failure text instead of raising, and the batch goes on:
    it appends the record with that text and then a record for each of
    the remaining words. *)
Theorem three_failures_give_failure_text (word : cell) st :
  (∀ i, (i < 3)%nat →
        attempt_fails (http w (requests st + i)%nat (POST generate_url word))) →
  (∃ st', generate_definition_ollama w word 3 st
          = (Ok (txt "Error: Failed to generate definition after 3 attempts"),
             st'))
  ∧ ∀ ref_df (rest : list cell) (results : list (gmap string cell)),
      reference_columns ref_df →
      ∃ out st' reference_def,
        for_words w ref_df (word :: rest) results st = (Ok out, st')
        ∧ reference_lookup ref_df word = Ok reference_def
        ∧ out !! length results
          = Some (make_result word
                    (txt "Error: Failed to generate definition after 3 attempts")
                    reference_def)
        ∧ length out = (length results + S (length rest))%nat.
Proof.
  intros H.
  destruct (generate_definition_ollama_fails w word st H) as (st1 & Hg & _).
  change (failure_text 3)
    with (txt "Error: Failed to generate definition after 3 attempts") in Hg.
  split; [by exists st1|].
  intros ref_df rest results Hcols. simpl. unfold bind at 1. rewrite Hg.
  unfold bind at 1, lift. rewrite reference_lookup_columns by done.
  unfold bind at 1, time_sleep, emit. simpl.
  match goal with |- context [for_words w ref_df rest ?acc ?s] =>
    destruct (for_words_returns w ref_df rest acc s Hcols)
      as (defs & st2 & -> & Hl & _) end.
  eexists _, st2, _. split; [reflexivity|]. split; [reflexivity|]. split.
  - rewrite <- app_assoc. rewrite lookup_app_r by lia.
    by rewrite Nat.sub_diag.
  - rewrite !length_app. unfold records_of. rewrite length_zip_with. simpl. lia.
Qed.

End Batch.

(** ** The connectivity probe *)

Section Probe.

Context {U : Unicode}.

Implicit Types (w : World) (st : State).

Lemma str_eq_json_true (s : str) (x : json) :
  str_eq_json s x = true ↔ x = JStr s.
Proof.
  destruct x; simpl; try (split; [done | by intros [=]]).
  rewrite bool_decide_eq_true. split; [by intros -> | by intros [= ->]].
Qed.

Lemma existsb_str_eq_json (s : str) (names : list json) :
  existsb (str_eq_json s) names = true ↔ JStr s ∈ names.
Proof.
  rewrite existsb_exists. split.
  - intros (x & Hx & Heq). apply str_eq_json_true in Heq as ->.
    by apply list_elem_of_In.
  - intros H. exists (JStr s). split; [by apply list_elem_of_In|].
    by apply str_eq_json_true.
Qed.

Lemma names_of_items_dicts (descriptors : list (gmap string json)) :
  names_of_items (JDict <$> descriptors) = Ok (name_of <$> descriptors).
Proof.
  induction descriptors as [|d ds IH]; [done|].
  rewrite !fmap_cons. simpl. by rewrite IH.
Qed.

(** The comprehension gives names only for a list of JSON objects. *)
Lemma names_of_items_Ok (items names : list json) :
  names_of_items items = Ok names →
  ∃ descriptors : list (gmap string json),
    items = JDict <$> descriptors ∧ names = name_of <$> descriptors.
Proof.
  revert names. induction items as [|model rest IH]; intros names; simpl.
  - intros [= <-]. by exists [].
  - destruct model as [| | | | |d]; simpl; try done.
    destruct (names_of_items rest) as [names'|] eqn:E; [|done].
    intros [= <-]. destruct (IH names' eq_refl) as (ds & -> & ->).
    by exists (d :: ds).
Qed.

Lemma name_of_model (descriptor : gmap string json) :
  name_of descriptor = JStr MODEL_NAME
  ↔ descriptor !! "name" = Some (JStr MODEL_NAME).
Proof.
  unfold name_of. destruct (descriptor !! "name") as [x|]; simpl.
  - split; [by intros -> | by intros [= ->]].
  - split; [intros [= H]; by vm_compute in H | done].
Qed.

(** The names can be read from the body and the model is among them
    exactly when the body is a JSON object whose [models] are a list of
    JSON objects, one of which carries the model name. *)
Lemma model_listed (reply : response) :
  (∃ names, listed_model_names reply = Ok names
            ∧ existsb (str_eq_json MODEL_NAME) names = true)
  ↔ ∃ (data : gmap string json) (descriptors : list (gmap string json))
      (descriptor : gmap string json),
      body reply = Some (JDict data)
      ∧ data !! "models" = Some (JList (JDict <$> descriptors))
      ∧ descriptor ∈ descriptors
      ∧ descriptor !! "name" = Some (JStr MODEL_NAME).
Proof.
  unfold listed_model_names, response_json. split.
  - intros (names & L & X). apply existsb_str_eq_json in X.
    destruct (body reply) as [[| | | | |data]|]; simpl in L; try done.
    exists data.
    destruct (py_iter (default (JList []) (data !! "models")))
      as [items|] eqn:I; [|done].
    apply names_of_items_Ok in L as (ds & -> & ->).
    apply list_elem_of_fmap in X as (d & Hd & Hin).
    exists ds, d. split; [done|]. split; [|split; [done|]].
    + destruct (data !! "models") as [[| | |s|l|dict]|]; simpl in I; try done.
      * injection I as I. destruct s, ds; try done.
        by apply elem_of_nil in Hin.
      * by injection I as ->.
      * injection I as I. destruct ds as [|d' ds]; [by apply elem_of_nil in Hin|].
        destruct (map_to_list dict); done.
      * injection I as I. destruct ds; [by apply elem_of_nil in Hin | done].
    + by apply name_of_model.
  - intros (data & ds & d & -> & Hm & Hin & Hn). simpl. rewrite Hm. simpl.
    exists (name_of <$> ds). split; [apply names_of_items_dicts|].
    apply existsb_str_eq_json, list_elem_of_fmap. exists d.
    split; [|done]. symmetry. by apply name_of_model.
Qed.

Ltac run :=
  unfold check_ollama_connection, try_except, bind, requests_get, send,
    lift, ret, print, emit; simpl.

Ltac no_probe :=
  intros (? & ? & ? & ? & ? & ? & ? & ? & ? & ?);
  repeat match goal with
         | E : (_ =? _) = false |- _ => apply Z.eqb_neq in E
         end;
  congruence.

Ltac only_probe_events :=
  split; [done|];
  eexists; split; [by rewrite <- ?app_assoc|];
  repeat constructor.

(** The probe never raises; it returns [true] exactly when it found the
    model; it only prints and sends its two read-only requests. *)
Lemma check_ollama_connection_cases w st :
  ∃ b st',
    check_ollama_connection w st = (Ok b, st')
    ∧ (b = true ↔ probe_succeeds w (requests st))
    ∧ files st' = files st
    ∧ ∃ evs, trace st' = trace st ++ evs ∧ Forall probe_event evs.
Proof.
  run.
  destruct (http w (requests st) (GET version_url)) as [r1|e1] eqn:E1; simpl.
  2: { destruct (is_ConnectionError e1); simpl; eexists false, _;
         (split; [reflexivity|]); (split; [split; [done | no_probe]|]);
         only_probe_events. }
  destruct (status_code r1 =? 200) eqn:S1; simpl.
  2: { eexists false, _. split; [reflexivity|].
       split; [split; [done | no_probe]|]. only_probe_events. }
  destruct (http w (S (requests st)) (GET tags_url)) as [r2|e2] eqn:E2; simpl.
  2: { destruct (is_ConnectionError e2); simpl; eexists false, _;
         (split; [reflexivity|]); (split; [split; [done | no_probe]|]);
         only_probe_events. }
  destruct (status_code r2 =? 200) eqn:S2; simpl.
  2: { eexists false, _. split; [reflexivity|].
       split; [split; [done | no_probe]|]. only_probe_events. }
  assert (probe_succeeds w (requests st)
          ↔ ∃ names, listed_model_names r2 = Ok names
                     ∧ existsb (str_eq_json MODEL_NAME) names = true) as Hp.
  { rewrite model_listed. apply Z.eqb_eq in S1, S2. split.
    - intros (v & t & data & ds & d & Hv & _ & Ht & _ & H).
      assert (t = r2) as -> by congruence. by exists data, ds, d.
    - intros (data & ds & d & H). by exists r1, r2, data, ds, d. }
  destruct (listed_model_names r2) as [names|e3] eqn:L; simpl.
  2: { destruct (is_ConnectionError e3); simpl; eexists false, _;
         (split; [reflexivity|]);
         (split; [split; [done | rewrite Hp; by intros (? & ? & _)]|]);
         only_probe_events. }
  destruct (existsb (str_eq_json MODEL_NAME) names) eqn:X; simpl.
  - eexists true, _. split; [reflexivity|]. split; [|only_probe_events].
    split; [|done]. intros _. apply Hp. by exists names.
  - eexists false, _. split; [reflexivity|]. split; [|only_probe_events].
    split; [done|]. rewrite Hp. intros (names' & [= <-] & H). congruence.
Qed.

(** C5.  The probe returns [true] if and only if the version endpoint
    answers with status 200, the listing of models answers with status
    200 and a JSON object whose [models] are a list of JSON objects, and
    one of these objects carries the configured model name; in every
    other case, a raised network exception included, it returns [false];
    it never raises. *)
Theorem check_ollama_connection_true_iff w st :
  ∃ b st',
    check_ollama_connection w st = (Ok b, st')
    ∧ (b = true ↔ probe_succeeds w (requests st)).
Proof.
  destruct (check_ollama_connection_cases w st) as (b & st' & H & Hb & _).
  by exists b, st'.
Qed.

(** C10, as the code has it.  When the listing of models answers with
    status 200 and a JSON object, a missing [models] field counts as the
    empty list and, in a list of objects, a missing [name] field counts
    as the empty name; nothing is raised, and when no listed object is
    named as the configured model the probe reports the model as not
    found and returns [false]. *)
Theorem missing_fields_are_defaults w st
  (version_reply tags_reply : response) (data : gmap string json)
  (descriptors : list (gmap string json)) :
  http w (requests st) (GET version_url) = Ok version_reply →
  status_code version_reply = 200 →
  http w (S (requests st)) (GET tags_url) = Ok tags_reply →
  status_code tags_reply = 200 →
  body tags_reply = Some (JDict data) →
  default (JList []) (data !! "models") = JList (JDict <$> descriptors) →
  Forall (λ d : gmap string json, d !! "name" ≠ Some (JStr MODEL_NAME))
    descriptors →
  listed_model_names tags_reply = Ok (name_of <$> descriptors)
  ∧ ∃ st',
      check_ollama_connection w st = (Ok false, st')
      ∧ trace st'
        = trace st
          ++ [Requested (GET version_url); Printed MsgOllamaRunning;
              Requested (GET tags_url);
              Printed (MsgModelNotFound (name_of <$> descriptors));
              Printed MsgPleasePull].
Proof.
  intros E1 S1 E2 S2 Hbody Hmodels Hnames.
  assert (listed_model_names tags_reply = Ok (name_of <$> descriptors)) as L.
  { unfold listed_model_names, response_json. rewrite Hbody. simpl.
    rewrite Hmodels. simpl. apply names_of_items_dicts. }
  split; [done|].
  assert (existsb (str_eq_json MODEL_NAME) (name_of <$> descriptors) = false) as X.
  { apply not_true_is_false. rewrite existsb_str_eq_json.
    intros (d & Hd & Hin)%list_elem_of_fmap.
    rewrite Forall_forall in Hnames. apply (Hnames d Hin).
    by apply name_of_model. }
  run. rewrite E1. simpl. apply Z.eqb_eq in S1, S2. rewrite S1. simpl.
  rewrite E2. simpl. rewrite S2. simpl. rewrite L. simpl. rewrite X. simpl.
  eexists. split; [reflexivity|]. simpl. by rewrite <- !app_assoc.
Qed.

(** ** The entry point *)

(** C8.  When the probe returns [false], [main] returns at once: from its
    start to its end it only prints and sends the read-only requests of
    the probe, so it sends no generation request, reads no input file and
    writes no output file, and the set of written files is unchanged. *)
Theorem main_stops_when_probe_fails w st st1 :
  check_ollama_connection w
    (after_event (Printed MsgRule) (after_event (Printed MsgBanner) st))
  = (Ok false, st1) →
  main w st = (Ok tt, st1)
  ∧ files st1 = files st
  ∧ ∃ evs, trace st1 = trace st ++ evs ∧ Forall probe_event evs.
Proof.
  intros H. split.
  - unfold main, bind at 1 2 3, print, emit. simpl.
    unfold after_event in H. simpl in H. by rewrite H.
  - destruct (check_ollama_connection_cases w
                (after_event (Printed MsgRule)
                   (after_event (Printed MsgBanner) st)))
      as (b & st' & H' & _ & Hf & evs & Ht & Hev).
    rewrite H in H'. injection H' as _ <-.
    split; [done|].
    exists (Printed MsgBanner :: Printed MsgRule :: evs). split.
    + rewrite Ht. simpl. by rewrite <- !app_assoc.
    + by repeat constructor.
Qed.

End Probe.

(** * Further properties *)

(** ** What [clean_definition] removes *)

Section CleaningRules.

Context {U : Unicode}.

Implicit Types (s t ws ds word : str) (r : regex) (ic : bool).

Lemma lstrip_head s c t : lstrip s = c :: t → isspace c = false.
Proof.
  induction s as [|a s IH]; simpl; [done|].
  destruct (isspace a) eqn:E; [done|]. by intros [= <- _].
Qed.

Lemma stripped_head c t : strip (c :: t) = c :: t → isspace c = false.
Proof.
  unfold strip. intros H.
  destruct (rstrip_prefix (lstrip (c :: t))) as [k Hk].
  rewrite H in Hk. by apply (lstrip_head (c :: t) c (t ++ k)).
Qed.

Lemma rstrip_last s c : last (rstrip s) = Some c → isspace c = false.
Proof.
  induction s as [|a s IH]; [done|]. rewrite rstrip_cons.
  destruct (rstrip s) as [|b r'] eqn:E.
  - destruct (isspace a) eqn:Ea; [done|]. by intros [= <-].
  - intros H. by apply IH.
Qed.

Lemma lstrip_blank s : forallb isspace s = true → lstrip s = [].
Proof.
  induction s as [|c s IH]; simpl; [done|].
  intros [-> H]%andb_true_iff. by apply IH.
Qed.

Lemma blank_suffix s t :
  t `suffix_of` s → forallb isspace s = true → forallb isspace t = true.
Proof.
  intros [k ->]. rewrite forallb_app. by intros [_ H]%andb_true_iff.
Qed.

(** X1.  The cleaned text neither begins nor ends with white space. *)
Theorem clean_definition_no_outer_space word s c :
  head (clean_definition word s) = Some c
  ∨ last (clean_definition word s) = Some c →
  isspace c = false.
Proof.
  pose proof (clean_definition_stripped word s) as H.
  destruct (clean_definition word s) as [|a t] eqn:E; [by intros [|]|].
  intros [[= <-]|Hl].
  - by apply (stripped_head a t).
  - rewrite <- H in Hl. by apply (rstrip_last (lstrip (a :: t))).
Qed.

(** X2.  A text of white space only, the empty text included, is cleaned
    to the empty text. *)
Theorem clean_definition_blank word s :
  forallb isspace s = true → clean_definition word s = [].
Proof.
  intros H.
  assert (∀ ic r, strip (re_sub ic r s) = []) as Hstep.
  { intros ic r. unfold strip. rewrite lstrip_blank; [done|].
    by eapply blank_suffix; [apply re_sub_suffix|]. }
  assert (substring_of (clean_definition word s) []) as (a & b & Hab).
  { unfold clean_definition. rewrite Hstep.
    eapply substring_of_trans; [apply strip_prefixes_substring|].
    eapply substring_of_trans; [apply strip_re_sub_substring|].
    match goal with |- context [if ?b then _ else _] => destruct b end.
    - eapply substring_of_trans; apply strip_re_sub_substring.
    - apply strip_re_sub_substring. }
  symmetry in Hab. apply app_eq_nil in Hab as [_ Hab].
  by apply app_eq_nil in Hab as [Hab _].
Qed.

Lemma clean_definition_of_empty word : clean_definition word [] = [].
Proof.
  destruct (clean_definition_is_substring word []) as (a & b & H).
  symmetry in H. apply app_eq_nil in H as [_ H].
  by apply app_eq_nil in H as [H _].
Qed.

(** *** How the quantifiers consume *)

Lemma match_star_stop ic a (k : str → option str) rest :
  head_in (atom_match ic a) rest = false → match_star ic a k rest = k rest.
Proof. destruct rest as [|c x]; simpl; [done|]. by intros ->. Qed.

Lemma match_star_greedy ic a (k : str → option str) ws rest out :
  forallb (atom_match ic a) ws = true →
  head_in (atom_match ic a) rest = false →
  k rest = Some out →
  match_star ic a k (ws ++ rest) = Some out.
Proof.
  intros Hws Hrest Hk. induction ws as [|c ws IH]; simpl.
  - by rewrite match_star_stop.
  - apply andb_true_iff in Hws as [-> Hws]. by rewrite IH.
Qed.

Lemma match_star_fail ic a (k : str → option str) ws rest :
  forallb (atom_match ic a) ws = true →
  head_in (atom_match ic a) rest = false →
  k rest = None →
  (∀ c x, atom_match ic a c = true → k (c :: x) = None) →
  match_star ic a k (ws ++ rest) = None.
Proof.
  intros Hws Hrest Hk Hc. induction ws as [|c ws IH]; simpl.
  - by rewrite match_star_stop.
  - apply andb_true_iff in Hws as [Hc' Hws]. rewrite Hc', IH by done.
    simpl. by apply Hc.
Qed.

Lemma re_match_word W word r s :
  reads_as_word word W →
  re_match true (re_escape word ++ r) (W ++ s) = re_match true r s.
Proof.
  induction 1 as [|p c word W Hpc _ IH]; [done|].
  unfold re_escape. cbn [map app re_match atom_match]. fold (re_escape word).
  by rewrite Hpc.
Qed.

Lemma startswith_app (p x : str) : startswith (p ++ x) p = true.
Proof. induction p as [|a p IH]; simpl; [done|]. by rewrite N.eqb_refl. Qed.

Lemma startswith_head (s p : str) c :
  startswith s (c :: p) = true → head s = Some c.
Proof.
  destruct s as [|a s]; simpl; [done|].
  intros [->%N.eqb_eq _]%andb_true_iff. done.
Qed.

Lemma stripped_head_in t : strip t = t → head_in isspace t = false.
Proof. destruct t as [|c t]; [done|]. apply stripped_head. Qed.

Lemma strip_blank_app ws t :
  forallb isspace ws = true → strip t = t → strip (ws ++ t) = t.
Proof.
  intros Hws Ht. unfold strip in *.
  replace (lstrip (ws ++ t)) with (lstrip t); [done|].
  induction ws as [|c ws IH]; simpl; [done|].
  apply andb_true_iff in Hws as [-> Hws]. by apply IH.
Qed.

(** After all the white space, the rest of the text. *)
Lemma re_match_spaces ic ws t :
  forallb isspace ws = true → head_in isspace t = false →
  re_match ic [Star Space] (ws ++ t) = Some t.
Proof. intros Hws Ht. by apply match_star_greedy. Qed.

(** The steps after the first leave a clean text as it is. *)
Lemma clean_definition_after_step_1 word s t :
  strip
    (re_sub true
       (re_escape word ++ [Star Space; One (Lit colon); Star Space]) s) = t →
  strip t = t → nothing_to_clean word t = true →
  clean_definition word s = t.
Proof.
  intros H1 Hs Hclean.
  pose proof (clean_definition_fixed word t Hs Hclean) as Hfix.
  unfold nothing_to_clean in Hclean.
  rewrite !andb_true_iff, !negb_true_iff in Hclean.
  destruct Hclean as [[[Hw Hc] Hd] Hp].
  unfold clean_definition in Hfix |- *. rewrite H1.
  by rewrite re_sub_word_no_match, Hs in Hfix by done.
Qed.

Lemma startswith_colon_false c x : c ≠ colon → startswith (c :: x) [colon] = false.
Proof.
  intros Hc. cbn [startswith].
  destruct (N.eqb_spec colon c) as [<-|]; [done|done].
Qed.

Lemma re_match_opt ic a r c s :
  atom_match ic a c = true →
  re_match ic (Opt a :: r) (c :: s)
  = or_else (re_match ic r s) (re_match ic r (c :: s)).
Proof. intros H. cbn [re_match]. by rewrite H. Qed.

Lemma re_match_plus ic a r c s :
  atom_match ic a c = true →
  re_match ic (Plus a :: r) (c :: s) = re_match ic (Star a :: r) s.
Proof. intros H. cbn [re_match]. by rewrite H. Qed.

Lemma strip_prefixes_at (before after : list str) p s t :
  Forall (λ q, startswith (str_lower s) q = false) before →
  startswith (str_lower s) p = true →
  strip (drop (length p) s) = t →
  forallb (λ q, negb (startswith (str_lower t) q)) after = true →
  fold_left
    (λ definition prefix,
       if startswith (str_lower definition) prefix
       then strip (drop (length prefix) definition)
       else definition)
    (before ++ p :: after) s = t.
Proof.
  intros Hb Hp Hd Ha. induction Hb as [|q qs Hq _ IH]; simpl.
  - rewrite Hp, Hd. by apply strip_prefixes_no_match.
  - by rewrite Hq.
Qed.

Lemma startswith_other_head (s p q : str) a b :
  a ≠ b → startswith s (a :: p) = true → startswith s (b :: q) = false.
Proof.
  intros Hab Ha. apply startswith_head in Ha.
  destruct (startswith s (b :: q)) eqn:Hb; [|done].
  apply startswith_head in Hb. congruence.
Qed.

(** X6.  One of the unwanted prefixes, spelled so that the text in lower
    case begins with it, is removed with the white space after it from
    the start of a text that begins neither with the word, nor with a
    colon, nor with a digit, when what follows is clean. *)
Theorem clean_definition_lead_in word p P ws t :
  p ∈ unwanted_prefixes →
  length P = length p →
  startswith (str_lower (P ++ ws ++ t)) p = true →
  forallb isspace ws = true →
  strip (P ++ ws ++ t) = P ++ ws ++ t →
  begins_with_word word (P ++ ws ++ t) = false →
  startswith (P ++ ws ++ t) [colon] = false →
  head_in isdigit (P ++ ws ++ t) = false →
  strip t = t →
  nothing_to_clean word t = true →
  clean_definition word (P ++ ws ++ t) = t.
Proof.
  intros Hin Hlen Hstart Hws Hs Hword Hcolon Hdigit Ht Hclean.
  unfold nothing_to_clean in Hclean.
  rewrite !andb_true_iff, !negb_true_iff in Hclean.
  destruct Hclean as [[[Hw Hc] Hd] Hp].
  assert (strip (drop (length p) (P ++ ws ++ t)) = t) as Hdrop.
  { rewrite <- Hlen, drop_app_length. by apply strip_blank_app. }
  unfold unwanted_prefixes in Hp. cbn [forallb] in Hp.
  rewrite !andb_true_iff, !negb_true_iff in Hp.
  destruct Hp as (Hp1 & Hp2 & Hp3 & Hp4 & _).
  unfold clean_definition.
  rewrite re_sub_word_no_match, Hs by done.
  rewrite re_sub_colon_no_match, Hs by done.
  assert ((if startswith (str_lower (P ++ ws ++ t)) (str_lower word)
             then strip
                    (re_sub true
                       (re_escape word
                        ++ [Star Space; Star Digit; Opt (Lit period); Star Space])
                       (P ++ ws ++ t))
             else P ++ ws ++ t) = P ++ ws ++ t) as Hif.
  { rewrite re_sub_word_no_match, Hs by done.
    by destruct (startswith (str_lower (P ++ ws ++ t)) (str_lower word)). }
  rewrite Hif.
  rewrite re_sub_digits_no_match, Hs.
  2: { destruct (P ++ ws ++ t) as [|c x]; [done|]. simpl in Hdigit.
       by rewrite Hdigit. }
  unfold unwanted_prefixes in Hin |- *.
  rewrite !elem_of_cons, elem_of_nil in Hin.
  destruct Hin as [->|[->|[->|[->|[]]]]].
  - apply (strip_prefixes_at [] [txt "arti:"; txt "makna:"; txt "pengertian:"]);
      [constructor|done|done|].
    cbn [forallb]. by rewrite Hp2, Hp3, Hp4.
  - apply (strip_prefixes_at [txt "definisi:"] [txt "makna:"; txt "pengertian:"]);
      [|done|done|].
    + repeat constructor.
      (eapply startswith_other_head; [|exact Hstart]; by vm_compute).
    + cbn [forallb]. by rewrite Hp3, Hp4.
  - apply (strip_prefixes_at [txt "definisi:"; txt "arti:"] [txt "pengertian:"]);
      [|done|done|].
    + repeat constructor;
        (eapply startswith_other_head; [|exact Hstart]; by vm_compute).
    + cbn [forallb]. by rewrite Hp4.
  - apply (strip_prefixes_at [txt "definisi:"; txt "arti:"; txt "makna:"] []);
      [|done|done|done].
    repeat constructor;
      (eapply startswith_other_head; [|exact Hstart]; by vm_compute).
Qed.

(** *** Colons, periods and numbers *)

Context {L : UnicodeLaws U}.

Lemma colon_match ic c : atom_match ic (Lit colon) c = true → c = colon.
Proof.
  destruct ic; unfold atom_match; rewrite ?ci_colon;
    intros H; apply N.eqb_eq in H; done.
Qed.

Lemma colon_match_refl ic : atom_match ic (Lit colon) colon = true.
Proof. destruct ic; unfold atom_match; rewrite ?ci_colon; done. Qed.

Lemma period_match ic : atom_match ic (Lit period) period = true.
Proof. destruct ic; unfold atom_match; rewrite ?ci_period; done. Qed.

Lemma one_colon_none ic c x r :
  c ≠ colon → re_match ic (One (Lit colon) :: r) (c :: x) = None.
Proof.
  intros Hc. cbn [re_match].
  destruct (atom_match ic (Lit colon) c) eqn:E; [|done].
  by apply colon_match in E.
Qed.

Lemma space_not_colon c : isspace c = true → c ≠ colon.
Proof. intros H ->. by rewrite colon_not_space in H. Qed.

Lemma digit_not_colon c : isdigit c = true → c ≠ colon.
Proof. intros H ->. by rewrite colon_not_digit in H. Qed.

(** X3.  The word, as [re.IGNORECASE] reads it, white space, a colon and
    white space are removed together from the start of the text when what
    follows is clean. *)
Theorem clean_definition_word_colon word W ws1 ws2 t :
  reads_as_word word W →
  forallb isspace ws1 = true →
  forallb isspace ws2 = true →
  strip t = t →
  nothing_to_clean word t = true →
  clean_definition word (W ++ ws1 ++ colon :: ws2 ++ t) = t.
Proof.
  intros HW H1 H2 Ht Hclean.
  apply clean_definition_after_step_1; [|done|done].
  unfold re_sub. rewrite re_match_word by done.
  change (re_match true [Star Space; One (Lit colon); Star Space])
    with (match_star true Space
            (re_match true [One (Lit colon); Star Space])).
  rewrite (match_star_greedy true Space _ ws1 (colon :: ws2 ++ t) t);
    [done|done|simpl; apply colon_not_space|].
  cbn [re_match]. rewrite colon_match_refl.
  apply (re_match_spaces true); [done|]. by apply stripped_head_in.
Qed.

(** A number with its period, then white space, then the rest. *)
Lemma re_match_number_tail ic ds ws t :
  forallb isdigit ds = true → forallb isspace ws = true →
  head_in isspace t = false →
  re_match ic [Star Digit; Opt (Lit period); Star Space]
    (ds ++ period :: ws ++ t) = Some t.
Proof.
  intros Hds Hws Ht.
  change (re_match ic [Star Digit; Opt (Lit period); Star Space])
    with (match_star ic Digit (re_match ic [Opt (Lit period); Star Space])).
  apply match_star_greedy; [done|simpl; apply period_not_digit|].
  rewrite re_match_opt by apply period_match.
  by rewrite (re_match_spaces ic ws t).
Qed.

(** X4.  The word, as [re.IGNORECASE] reads it, followed by a number and
    a period is removed from the start of a text with what white space
    surrounds the number, when the text in lower case begins with the
    word in lower case and what follows is clean. *)
Theorem clean_definition_word_number word W ws1 ds ws2 t :
  reads_as_word word W →
  startswith (str_lower (W ++ ws1 ++ ds ++ period :: ws2 ++ t))
    (str_lower word) = true →
  forallb isspace ws1 = true →
  forallb isdigit ds = true →
  forallb isspace ws2 = true →
  strip (W ++ ws1 ++ ds ++ period :: ws2 ++ t)
  = W ++ ws1 ++ ds ++ period :: ws2 ++ t →
  startswith (W ++ ws1 ++ ds ++ period :: ws2 ++ t) [colon] = false →
  strip t = t →
  nothing_to_clean word t = true →
  clean_definition word (W ++ ws1 ++ ds ++ period :: ws2 ++ t) = t.
Proof.
  intros HW Hguard H1 Hds H2 Hs Hcolon Ht Hclean.
  pose proof (stripped_head_in t Ht) as Hhead.
  assert (head_in isspace (ds ++ period :: ws2 ++ t) = false) as Hnum.
  { destruct ds as [|d ds]; simpl; [apply period_not_space|].
    simpl in Hds. apply andb_true_iff in Hds as [Hd _].
    by apply digit_not_space. }
  assert (∀ ic, re_match ic [One (Lit colon); Star Space]
                  (ds ++ period :: ws2 ++ t) = None) as Hnocolon.
  { intros ic. destruct ds as [|d ds]; simpl app.
    - by apply one_colon_none.
    - simpl in Hds. apply andb_true_iff in Hds as [Hd _].
      by apply one_colon_none, digit_not_colon. }
  unfold nothing_to_clean in Hclean.
  rewrite !andb_true_iff, !negb_true_iff in Hclean.
  destruct Hclean as [[[Hw Hc] Hd] Hp].
  unfold clean_definition.
  (* the word is not followed by a colon *)
  assert (re_sub true
            (re_escape word ++ [Star Space; One (Lit colon); Star Space])
            (W ++ ws1 ++ ds ++ period :: ws2 ++ t)
          = W ++ ws1 ++ ds ++ period :: ws2 ++ t) as ->.
  { unfold re_sub. rewrite re_match_word by done.
    change (re_match true [Star Space; One (Lit colon); Star Space])
      with (match_star true Space
              (re_match true [One (Lit colon); Star Space])).
    rewrite match_star_fail; [done|done|done|apply Hnocolon|].
    intros c x Hc'. by apply one_colon_none, space_not_colon. }
  rewrite Hs, re_sub_colon_no_match, Hs by done.
  rewrite Hguard.
  assert (re_sub true
            (re_escape word
             ++ [Star Space; Star Digit; Opt (Lit period); Star Space])
            (W ++ ws1 ++ ds ++ period :: ws2 ++ t) = t) as ->.
  { unfold re_sub. rewrite re_match_word by done.
    change (re_match true [Star Space; Star Digit; Opt (Lit period); Star Space])
      with (match_star true Space
              (re_match true [Star Digit; Opt (Lit period); Star Space])).
    rewrite (match_star_greedy true Space _ ws1 _ t); [done|done|done|].
    by apply re_match_number_tail. }
  rewrite Ht, re_sub_digits_no_match, Ht by done.
  by apply strip_prefixes_no_match.
Qed.

(** X5.  A number with its period is removed from the start of a text
    that does not begin with the word, when what follows is clean. *)
Theorem clean_definition_number word d ds ws t :
  isdigit d = true →
  forallb isdigit ds = true →
  forallb isspace ws = true →
  strip (d :: ds ++ period :: ws ++ t) = d :: ds ++ period :: ws ++ t →
  begins_with_word word (d :: ds ++ period :: ws ++ t) = false →
  strip t = t →
  nothing_to_clean word t = true →
  clean_definition word (d :: ds ++ period :: ws ++ t) = t.
Proof.
  intros Hd Hds Hws Hs Hword Ht Hclean.
  pose proof (stripped_head_in t Ht) as Hhead.
  unfold nothing_to_clean in Hclean.
  rewrite !andb_true_iff, !negb_true_iff in Hclean.
  destruct Hclean as [[[Hw Hc] Hd'] Hp].
  unfold clean_definition.
  rewrite re_sub_word_no_match, Hs by done.
  rewrite re_sub_colon_no_match, Hs
    by (by apply startswith_colon_false, digit_not_colon).
  assert ((if startswith (str_lower (d :: ds ++ period :: ws ++ t))
                  (str_lower word)
             then strip
                    (re_sub true
                       (re_escape word
                        ++ [Star Space; Star Digit; Opt (Lit period); Star Space])
                       (d :: ds ++ period :: ws ++ t))
             else d :: ds ++ period :: ws ++ t)
            = d :: ds ++ period :: ws ++ t) as Hif.
  { rewrite re_sub_word_no_match, Hs by done.
    by destruct (startswith (str_lower (d :: ds ++ period :: ws ++ t))
                   (str_lower word)). }
  rewrite Hif.
  assert (re_sub false [Plus Digit; Opt (Lit period); Star Space]
            (d :: ds ++ period :: ws ++ t) = t) as ->.
  { unfold re_sub. rewrite re_match_plus by done.
    by rewrite re_match_number_tail. }
  rewrite Ht. by apply strip_prefixes_no_match.
Qed.

End CleaningRules.

(** ** Requests and pauses of the retry loop *)

Section Effects.

Context {U : Unicode}.

Variable w : World.

Implicit Types (st : State) (word : cell) (evs : list event).

Lemma extends_refl st : extends st st [].
Proof. split; simpl; [by rewrite app_nil_r | lia]. Qed.

Lemma requests_of_app evs1 evs2 :
  requests_of (evs1 ++ evs2) = requests_of evs1 ++ requests_of evs2.
Proof. apply bind_app. Qed.

Lemma sleeps_of_app evs1 evs2 :
  sleeps_of (evs1 ++ evs2) = sleeps_of evs1 ++ sleeps_of evs2.
Proof. apply bind_app. Qed.

Lemma reads_of_app evs1 evs2 :
  reads_of (evs1 ++ evs2) = reads_of evs1 ++ reads_of evs2.
Proof. apply bind_app. Qed.

Lemma writes_of_app evs1 evs2 :
  writes_of (evs1 ++ evs2) = writes_of evs1 ++ writes_of evs2.
Proof. apply bind_app. Qed.

Lemma extends_trans st1 st2 st3 evs1 evs2 :
  extends st1 st2 evs1 → extends st2 st3 evs2 →
  extends st1 st3 (evs1 ++ evs2).
Proof.
  intros [Ht1 Hr1] [Ht2 Hr2]. split.
  - by rewrite Ht2, Ht1, app_assoc.
  - rewrite Hr2, Hr1, requests_of_app, length_app. lia.
Qed.

Lemma attempt_fails_result word reply :
  attempt_fails reply → attempt_result word reply = None.
Proof.
  destruct reply as [resp|e]; simpl; [|done].
  destruct (status_code resp =? 200) eqn:E; [|done].
  apply Z.eqb_eq in E. by intros [H|[e ->]].
Qed.

(** For a word that is not a text no reply makes an attempt succeed. *)
Lemma attempt_result_no_text word reply :
  (∀ text, word ≠ CStr text) → attempt_result word reply = None.
Proof.
  intros Hword. destruct reply as [resp|e]; simpl; [|done].
  destruct (status_code resp =? 200); [|done].
  destruct (generated_text resp) as [text|e]; [|done].
  destruct word as [s| | | |]; simpl; try done. by destruct (Hword s).
Qed.

(** One attempt: one request, no pause, and the result of the reply. *)
Lemma attempt_once_run word max_retries attempt st :
  ∃ st' evs,
    attempt_once w word max_retries attempt st
    = (Ok (attempt_result word
             (http w (requests st) (POST generate_url word))), st')
    ∧ extends st st' evs ∧ files st' = files st
    ∧ requests_of evs = [POST generate_url word]
    ∧ sleeps_of evs = [] ∧ reads_of evs = [] ∧ writes_of evs = [].
Proof.
  unfold attempt_once, try_except, bind, requests_post, send, lift, ret,
    print, emit, attempt_result, extends. simpl.
  destruct (http w (requests st) (POST generate_url word)) as [resp|e]; simpl.
  - destruct (status_code resp =? 200); simpl.
    + destruct (generated_text resp) as [d|e]; simpl.
      * destruct (call_clean_definition word d) as [c|e]; simpl.
        -- eexists _, [_]. split; [reflexivity|]. simpl.
           repeat split; simpl; lia.
        -- destruct (is_Timeout e); simpl; eexists _, [_; _];
             (split; [reflexivity|]); simpl; rewrite <- ?app_assoc;
             repeat split; simpl; lia.
      * destruct (is_Timeout e); simpl; eexists _, [_; _];
          (split; [reflexivity|]); simpl; rewrite <- ?app_assoc;
          repeat split; simpl; lia.
    + eexists _, [_; _]. split; [reflexivity|]. simpl.
      rewrite <- ?app_assoc. repeat split; simpl; lia.
  - destruct (is_Timeout e); simpl; eexists _, [_; _];
      (split; [reflexivity|]); simpl; rewrite <- ?app_assoc;
      repeat split; simpl; lia.
Qed.

Lemma pause_run (max_retries attempt : Z) st :
  ∃ st' evs,
    (if attempt <? max_retries - 1 then time_sleep 2000 else ret tt) st
    = (Ok tt, st')
    ∧ extends st st' evs ∧ files st' = files st
    ∧ requests_of evs = []
    ∧ sleeps_of evs = retry_pauses max_retries [attempt]
    ∧ reads_of evs = [] ∧ writes_of evs = [].
Proof.
  unfold retry_pauses, extends. simpl.
  destruct (attempt <? max_retries - 1); unfold time_sleep, emit, ret; simpl.
  - eexists _, [_]. split; [reflexivity|]. simpl. repeat split; simpl; lia.
  - eexists _, []. split; [reflexivity|]. simpl.
    rewrite app_nil_r. repeat split; simpl; lia.
Qed.

(** The loop when every attempt fails: one request per attempt, and a
    pause after each attempt but the last of the range. *)
Lemma retry_loop_all_fail word max_retries (attempts : list Z) st :
  (∀ i, (i < length attempts)%nat →
        attempt_result word
          (http w (requests st + i)%nat (POST generate_url word)) = None) →
  ∃ st' evs,
    retry_loop w word max_retries attempts st = (Ok None, st')
    ∧ extends st st' evs ∧ files st' = files st
    ∧ requests_of evs = replicate (length attempts) (POST generate_url word)
    ∧ sleeps_of evs = retry_pauses max_retries attempts
    ∧ reads_of evs = [] ∧ writes_of evs = [].
Proof.
  revert st. induction attempts as [|a rest IH]; intros st H.
  - exists st, []. split; [done|]. split; [apply extends_refl|]. done.
  - simpl retry_loop. unfold bind at 1.
    destruct (attempt_once_run word max_retries a st)
      as (st1 & evs1 & -> & He1 & Hf1 & Hq1 & Hs1 & Hr1 & Hw1).
    pose proof (H 0%nat ltac:(simpl; lia)) as H0.
    rewrite Nat.add_0_r in H0. rewrite H0.
    unfold bind at 1.
    destruct (pause_run max_retries a st1)
      as (st2 & evs2 & -> & He2 & Hf2 & Hq2 & Hs2 & Hr2 & Hw2).
    destruct (IH st2) as (st3 & evs3 & -> & He3 & Hf3 & Hq3 & Hs3 & Hr3 & Hw3).
    { intros i Hi. destruct He1 as [_ Hn1], He2 as [_ Hn2].
      rewrite Hn2, Hn1, Hq1, Hq2. simpl.
      replace (requests st + 1 + 0 + i)%nat with (requests st + S i)%nat by lia.
      apply H. simpl. lia. }
    exists st3, (evs1 ++ evs2 ++ evs3). split; [done|].
    split; [by repeat eapply extends_trans|].
    rewrite !requests_of_app, !sleeps_of_app, !reads_of_app, !writes_of_app.
    rewrite Hq1, Hq2, Hq3, Hs1, Hs2, Hs3, Hr1, Hr2, Hr3, Hw1, Hw2, Hw3.
    repeat split; [congruence|].
    unfold retry_pauses. simpl. by rewrite app_nil_r.
Qed.

(** The loop when the attempt after [before] is the first to succeed. *)
Lemma retry_loop_first_success word max_retries
  (before : list Z) (a : Z) (after : list Z) st d :
  (∀ i, (i < length before)%nat →
        attempt_result word
          (http w (requests st + i)%nat (POST generate_url word)) = None) →
  attempt_result word
    (http w (requests st + length before)%nat (POST generate_url word))
  = Some d →
  ∃ st' evs,
    retry_loop w word max_retries (before ++ a :: after) st = (Ok (Some d), st')
    ∧ extends st st' evs ∧ files st' = files st
    ∧ requests_of evs
      = replicate (S (length before)) (POST generate_url word)
    ∧ sleeps_of evs = retry_pauses max_retries before
    ∧ reads_of evs = [] ∧ writes_of evs = [].
Proof.
  revert st. induction before as [|b rest IH]; intros st H Hd.
  - simpl app. simpl retry_loop. unfold bind at 1.
    destruct (attempt_once_run word max_retries a st)
      as (st1 & evs1 & -> & He1 & Hf1 & Hq1 & Hs1 & Hr1 & Hw1).
    simpl in Hd. rewrite Nat.add_0_r in Hd. rewrite Hd.
    by exists st1, evs1.
  - simpl app. simpl retry_loop. unfold bind at 1.
    destruct (attempt_once_run word max_retries b st)
      as (st1 & evs1 & -> & He1 & Hf1 & Hq1 & Hs1 & Hr1 & Hw1).
    pose proof (H 0%nat ltac:(simpl; lia)) as H0.
    rewrite Nat.add_0_r in H0. rewrite H0.
    unfold bind at 1.
    destruct (pause_run max_retries b st1)
      as (st2 & evs2 & -> & He2 & Hf2 & Hq2 & Hs2 & Hr2 & Hw2).
    assert (requests st2 = S (requests st)) as Hn.
    { destruct He1 as [_ Hn1], He2 as [_ Hn2].
      rewrite Hn2, Hn1, Hq1, Hq2. simpl. lia. }
    destruct (IH st2) as (st3 & evs3 & -> & He3 & Hf3 & Hq3 & Hs3 & Hr3 & Hw3).
    { intros i Hi. rewrite Hn.
      replace (S (requests st) + i)%nat with (requests st + S i)%nat by lia.
      apply H. simpl. lia. }
    { rewrite Hn. simpl in Hd.
      by replace (S (requests st) + length rest)%nat
        with (requests st + S (length rest))%nat by lia. }
    exists st3, (evs1 ++ evs2 ++ evs3). split; [done|].
    split; [by repeat eapply extends_trans|].
    rewrite !requests_of_app, !sleeps_of_app, !reads_of_app, !writes_of_app.
    rewrite Hq1, Hq2, Hq3, Hs1, Hs2, Hs3, Hr1, Hr2, Hr3, Hw1, Hw2, Hw3.
    repeat split; [congruence|].
    unfold retry_pauses. simpl. by rewrite app_nil_r.
Qed.

(** The loop in general: at most one request per attempt of the range, at
    least one when the range is not empty, pauses of two seconds only. *)
Lemma retry_loop_run word max_retries (attempts : list Z) st :
  ∃ r st' evs (n : nat),
    retry_loop w word max_retries attempts st = (Ok r, st')
    ∧ extends st st' evs ∧ files st' = files st
    ∧ requests_of evs = replicate n (POST generate_url word)
    ∧ (n ≤ length attempts)%nat
    ∧ (attempts ≠ [] → (1 ≤ n)%nat)
    ∧ Forall (λ ms, ms = 2000) (sleeps_of evs)
    ∧ reads_of evs = [] ∧ writes_of evs = [].
Proof.
  revert st. induction attempts as [|a rest IH]; intros st.
  - exists None, st, [], 0%nat. split; [done|].
    split; [apply extends_refl|]. by repeat split.
  - simpl retry_loop. unfold bind at 1.
    destruct (attempt_once_run word max_retries a st)
      as (st1 & evs1 & -> & He1 & Hf1 & Hq1 & Hs1 & Hr1 & Hw1).
    destruct (attempt_result word _) as [d|].
    { exists (Some d), st1, evs1, 1%nat. rewrite Hs1.
      split; [done|]. split; [done|]. split; [done|]. split; [done|].
      split; [simpl; lia|]. split; [intros _; lia|].
      split; [constructor | done]. }
    unfold bind at 1.
    destruct (pause_run max_retries a st1)
      as (st2 & evs2 & -> & He2 & Hf2 & Hq2 & Hs2 & Hr2 & Hw2).
    destruct (IH st2)
      as (r & st3 & evs3 & n & -> & He3 & Hf3 & Hq3 & Hn & _ & Hs3 & Hr3 & Hw3).
    exists r, st3, (evs1 ++ evs2 ++ evs3), (S n). split; [done|].
    split; [by repeat eapply extends_trans|].
    rewrite !requests_of_app, !sleeps_of_app, !reads_of_app, !writes_of_app.
    rewrite Hq1, Hq2, Hq3, Hs1, Hs2, Hr1, Hr2, Hr3, Hw1, Hw2, Hw3.
    split; [congruence|]. split; [done|].
    split; [simpl; lia|]. split; [intros _; lia|].
    split; [|done]. simpl. apply Forall_app. split; [|done].
    unfold retry_pauses. simpl.
    destruct (a <? max_retries - 1); by repeat constructor.
Qed.

(** X7.  The generation stops at the first attempt that succeeds: when
    the first [k] attempts fail and the next reply has status 200 and a
    readable text, the cleaned text is returned after [k + 1] requests
    and [k] pauses of two seconds. *)
Theorem generation_stops_at_first_success (word : str) st (k : nat)
  (reply : response) (text : str) :
  (k < 3)%nat →
  (∀ i, (i < k)%nat →
        attempt_fails
          (http w (requests st + i)%nat (POST generate_url (CStr word)))) →
  http w (requests st + k)%nat (POST generate_url (CStr word)) = Ok reply →
  status_code reply = 200 →
  generated_text reply = Ok text →
  ∃ st' evs,
    generate_definition_ollama w (CStr word) 3 st
    = (Ok (clean_definition word text), st')
    ∧ extends st st' evs
    ∧ requests_of evs = replicate (S k) (POST generate_url (CStr word))
    ∧ sleeps_of evs = replicate k 2000.
Proof.
  intros Hk Hfail Hreply Hstatus Htext.
  assert (attempt_result (CStr word)
            (http w (requests st + k)%nat (POST generate_url (CStr word)))
          = Some (clean_definition word text)) as Hd.
  { rewrite Hreply. simpl. apply Z.eqb_eq in Hstatus. by rewrite Hstatus, Htext. }
  assert (∀ i, (i < k)%nat →
            attempt_result (CStr word)
              (http w (requests st + i)%nat (POST generate_url (CStr word)))
            = None)
    as Hnone.
  { intros i Hi. by apply attempt_fails_result, Hfail. }
  unfold generate_definition_ollama, bind.
  change (seqZ 0 3) with [0; 1; 2].
  destruct k as [|[|[|k]]]; [| | |lia].
  - destruct (retry_loop_first_success (CStr word) 3 [] 0 [1; 2] st _ Hnone Hd)
      as (st' & evs & Heq & He & _ & Hq & Hs & _).
    cbn [app] in Heq. rewrite Heq. by exists st', evs.
  - destruct (retry_loop_first_success (CStr word) 3 [0] 1 [2] st _ Hnone Hd)
      as (st' & evs & Heq & He & _ & Hq & Hs & _).
    cbn [app] in Heq. rewrite Heq. by exists st', evs.
  - destruct (retry_loop_first_success (CStr word) 3 [0; 1] 2 [] st _ Hnone Hd)
      as (st' & evs & Heq & He & _ & Hq & Hs & _).
    cbn [app] in Heq. rewrite Heq. by exists st', evs.
Qed.


Lemma generate_definition_ollama_run word max_retries st :
  ∃ d st' evs (n : nat),
    generate_definition_ollama w word max_retries st = (Ok d, st')
    ∧ extends st st' evs ∧ files st' = files st
    ∧ requests_of evs = replicate n (POST generate_url word)
    ∧ (n ≤ Z.to_nat max_retries)%nat
    ∧ (0 < max_retries → (1 ≤ n)%nat)
    ∧ Forall (λ ms, ms = 2000) (sleeps_of evs)
    ∧ reads_of evs = [] ∧ writes_of evs = [].
Proof.
  unfold generate_definition_ollama, bind.
  destruct (retry_loop_run word max_retries (seqZ 0 max_retries) st)
    as (r & st' & evs & n & -> & He & Hf & Hq & Hn & H1 & Hs & Hr & Hw).
  rewrite length_seqZ in Hn.
  assert (0 < max_retries → (1 ≤ n)%nat) as H1'.
  { intros Hpos. apply H1. intros Hnil.
    apply (f_equal length) in Hnil. rewrite length_seqZ in Hnil.
    simpl in Hnil. lia. }
  destruct r as [d|]; unfold ret; by eexists _, st', evs, n.
Qed.

(** X9.  Whatever the server does, a generation never raises, sends at
    most [max_retries] requests, all of them generation requests for its
    word, pauses for two seconds only, and reads and writes no file. *)
Theorem generation_effects_bounded word max_retries st :
  ∃ d st' evs (n : nat),
    generate_definition_ollama w word max_retries st = (Ok d, st')
    ∧ extends st st' evs ∧ files st' = files st
    ∧ requests_of evs = replicate n (POST generate_url word)
    ∧ (n ≤ Z.to_nat max_retries)%nat
    ∧ Forall (λ ms, ms = 2000) (sleeps_of evs)
    ∧ reads_of evs = [] ∧ writes_of evs = [].
Proof.
  destruct (generate_definition_ollama_run word max_retries st)
    as (d & st' & evs & n & H & He & Hf & Hq & Hn & _ & Hs & Hr & Hw).
  by exists d, st', evs, n.
Qed.

(** X10.  With a number of retries that is zero or negative no request is
    sent: the failure text, with that number in it, is returned at
    once. *)
Theorem no_retries_no_request word max_retries st :
  max_retries ≤ 0 →
  generate_definition_ollama w word max_retries st
  = (Ok (failure_text max_retries), st).
Proof.
  intros H. unfold generate_definition_ollama, bind.
  by rewrite seqZ_nil.
Qed.

(** X11.  A reply with status 200 whose JSON object has no [response]
    field gives the empty definition, at the first attempt. *)
Theorem missing_response_gives_empty (word : str) st
  (reply : response) (data : gmap string json) :
  http w (requests st) (POST generate_url (CStr word)) = Ok reply →
  status_code reply = 200 →
  body reply = Some (JDict data) →
  data !! "response" = None →
  ∃ st', generate_definition_ollama w (CStr word) 3 st = (Ok [], st')
         ∧ requests st' = S (requests st).
Proof.
  intros Hreply Hstatus Hbody Hdata.
  assert (attempt_result (CStr word)
            (http w (requests st + 0)%nat (POST generate_url (CStr word)))
          = Some []) as Hd.
  { rewrite Nat.add_0_r, Hreply. simpl. apply Z.eqb_eq in Hstatus.
    rewrite Hstatus. unfold generated_text, response_json.
    rewrite Hbody. simpl. rewrite Hdata. simpl.
    assert (strip [] = []) as -> by done.
    by rewrite clean_definition_of_empty. }
  unfold generate_definition_ollama, bind.
  change (seqZ 0 3) with [0; 1; 2].
  destruct (retry_loop_first_success (CStr word) 3 [] 0 [1; 2] st [])
    as (st' & evs & Heq & [_ He] & _ & Hq & _); [intros i Hi; simpl in Hi; lia|done|].
  cbn [app] in Heq. rewrite Heq.
  exists st'. split; [done|]. rewrite He, Hq. simpl. lia.
Qed.

(** X12.  A definition generated at the first attempt is a contiguous
    part of the text the server sent, without white space at its ends. *)
Theorem generated_definition_from_reply (word : str) st
  (reply : response) (data : gmap string json) (raw : str) :
  http w (requests st) (POST generate_url (CStr word)) = Ok reply →
  status_code reply = 200 →
  body reply = Some (JDict data) →
  data !! "response" = Some (JStr raw) →
  ∃ d st',
    generate_definition_ollama w (CStr word) 3 st = (Ok d, st')
    ∧ d = clean_definition word (strip raw)
    ∧ substring_of d raw
    ∧ strip d = d.
Proof.
  intros Hreply Hstatus Hbody Hdata.
  assert (attempt_result (CStr word)
            (http w (requests st + 0)%nat (POST generate_url (CStr word)))
          = Some (clean_definition word (strip raw))) as Hd.
  { rewrite Nat.add_0_r, Hreply. simpl. apply Z.eqb_eq in Hstatus.
    rewrite Hstatus. unfold generated_text, response_json.
    rewrite Hbody. simpl. by rewrite Hdata. }
  unfold generate_definition_ollama, bind.
  change (seqZ 0 3) with [0; 1; 2].
  destruct (retry_loop_first_success (CStr word) 3 [] 0 [1; 2] st
              (clean_definition word (strip raw)))
    as (st' & evs & Heq & _); [intros i Hi; simpl in Hi; lia|exact Hd|].
  cbn [app] in Heq. rewrite Heq.
  eexists _, st'. split; [reflexivity|]. split; [done|]. split.
  - eapply substring_of_trans; [apply clean_definition_is_substring|].
    apply strip_substring.
  - apply clean_definition_stripped.
Qed.

(** X25.  A word that is not a text (a number, a truth value or the NaN
    of an empty field of the word file) never gets a definition: whatever
    the server replies, each of the three attempts fails, and the
    generation returns the failure text after three requests and two
    pauses of two seconds. *)
Theorem word_that_is_no_text_fails word st :
  (∀ text, word ≠ CStr text) →
  ∃ st' evs,
    generate_definition_ollama w word 3 st = (Ok (failure_text 3), st')
    ∧ extends st st' evs
    ∧ requests_of evs = replicate 3 (POST generate_url word)
    ∧ sleeps_of evs = [2000; 2000].
Proof.
  intros Hword. unfold generate_definition_ollama, bind.
  change (seqZ 0 3) with [0; 1; 2].
  destruct (retry_loop_all_fail word 3 [0; 1; 2] st)
    as (st' & evs & -> & He & _ & Hq & Hs & _).
  { intros i Hi. by apply attempt_result_no_text. }
  by exists st', evs.
Qed.

End Effects.


(** ** Requests, pauses and columns of the batch *)

Section BatchEffects.

Context {U : Unicode}.

Variable w : World.

Implicit Types (st : State) (word : cell) (evs : list event)
  (ref_df : option DataFrame).

(** The lookup raises [KeyError], and only it, when it cannot be done. *)
Lemma reference_lookup_cases ref_df word :
  (¬ lookup_fails ref_df word
   ∧ reference_lookup ref_df word = Ok (lookup_value ref_df word))
  ∨ (lookup_fails ref_df word
     ∧ reference_lookup ref_df word = Raised KeyError).
Proof.
  unfold lookup_value, lookup_fails, reference_lookup.
  destruct ref_df as [df|]; [|left; split; [by intros (? & ? & _) | done]].
  case_bool_decide as Hw.
  2: { right. split; [|done]. exists df. split; [done | by left]. }
  destruct (filter _ (rows df)) as [|row found] eqn:E.
  - left. split; [|done].
    intros (df' & [= <-] & [H|(_ & row & Hin & Hrow)]); [done|].
    assert (row ∈ filter (λ row, py_eq (frame_cell row "word") word = true)
                    (rows df)) as H
      by by apply list_elem_of_filter.
    rewrite E in H. by apply elem_of_nil in H.
  - assert (row ∈ filter (λ row, py_eq (frame_cell row "word") word = true)
                    (rows df)) as H
      by (rewrite E; left).
    apply list_elem_of_filter in H as [Hrow Hin].
    case_bool_decide as Hd.
    + left. split; [|done].
      by intros (df' & [= <-] & [H|(H & _)]).
    + right. split; [|done]. exists df. split; [done|]. right.
      split; [done|]. by exists row.
Qed.




(** The loop in general: it raises nothing but the [KeyError] of a
    lookup that cannot be done, and writes no file. *)
Lemma for_words_cases ref_df (words : list cell)
  (results : list (gmap string cell)) st :
  ∃ r st',
    for_words w ref_df words results st = (r, st')
    ∧ files st' = files st
    ∧ ((Forall (λ word, ¬ lookup_fails ref_df word) words
        ∧ ∃ defs, r = Ok (results ++ records_of ref_df words defs)
                  ∧ length defs = length words)
       ∨ (Exists (lookup_fails ref_df) words ∧ r = Raised KeyError)).
Proof.
  revert results st.
  induction words as [|word rest IH]; intros results st.
  - exists (Ok results), st. split; [done|]. split; [done|]. left.
    split; [constructor|]. exists []. unfold records_of. simpl.
    by rewrite app_nil_r.
  - simpl for_words. unfold bind at 1.
    destruct (generate_definition_ollama_returns w word 3 st)
      as (d & st1 & -> & Hf1).
    unfold bind at 1, lift.
    destruct (reference_lookup_cases ref_df word) as [[Hok ->]|[Hfail ->]].
    2: { exists (Raised KeyError), st1. split; [done|]. split; [done|].
         right. split; [by left | done]. }
    unfold bind at 1, time_sleep, emit. cbn [fst snd].
    match goal with |- context [for_words w ref_df rest ?acc ?s] =>
      destruct (IH acc s) as (r & st2 & -> & Hf2 & Hcases) end.
    exists r, st2. split; [done|]. split; [simpl in Hf2; congruence|].
    destruct Hcases as [(Hall & defs & -> & Hl)|(Hex & ->)].
    + left. split; [by constructor|]. exists (d :: defs).
      split; [by rewrite <- app_assoc | simpl; lia].
    + right. split; [by right | done].
Qed.

Lemma generate_definitions_cases (words : list cell) ref_df st :
  ∃ r st',
    generate_definitions w words ref_df st = (r, st')
    ∧ files st' = files st
    ∧ ((Forall (λ word, ¬ lookup_fails ref_df word) words
        ∧ ∃ defs, r = Ok (pd_DataFrame (records_of ref_df words defs))
                  ∧ length defs = length words)
       ∨ (Exists (lookup_fails ref_df) words ∧ r = Raised KeyError)).
Proof.
  unfold generate_definitions, bind at 1, print, emit. cbn [fst snd].
  unfold bind.
  match goal with |- context [for_words w ref_df words [] ?s] =>
    destruct (for_words_cases ref_df words [] s)
      as (r & st' & -> & Hf & Hcases) end.
  destruct Hcases as [(Hall & defs & -> & Hl)|(Hex & ->)].
  - eexists _, st'. split; [reflexivity|]. split; [done|]. left.
    split; [done|]. by exists defs.
  - exists (Raised KeyError), st'. split; [done|]. split; [done|]. by right.
Qed.

(** X26.  A reference table without the column [word] stops the batch at
    its first word: once the definition of that word is generated, with
    its one to three requests, the lookup raises [KeyError]; no record is
    returned and no file is written. *)
Theorem batch_raises_without_word_column word (rest : list cell)
  (df : DataFrame) st :
  "word" ∉ columns df →
  ∃ st' evs (n : nat),
    generate_definitions w (word :: rest) (Some df) st = (Raised KeyError, st')
    ∧ extends st st' (Printed (MsgGenerating (S (length rest))) :: evs)
    ∧ files st' = files st
    ∧ requests_of evs = replicate n (POST generate_url word)
    ∧ (1 ≤ n ≤ 3)%nat
    ∧ Forall (λ ms, ms = 2000) (sleeps_of evs).
Proof.
  intros Hcol.
  unfold generate_definitions, bind at 1, print, emit. cbn [fst snd].
  unfold bind at 1. simpl for_words. unfold bind at 1.
  match goal with |- context [generate_definition_ollama w word 3 ?s] =>
    destruct (generate_definition_ollama_run w word 3 s)
      as (d & st1 & evs1 & n & -> & He1 & Hf1 & Hq1 & Hn & Hn1 & Hs1 & _)
  end.
  unfold bind at 1, lift, reference_lookup.
  rewrite bool_decide_eq_false_2 by done.
  exists st1, evs1, n. split; [done|]. split.
  { change (Printed (MsgGenerating (S (length rest))) :: evs1)
      with ([Printed (MsgGenerating (S (length rest)))] ++ evs1).
    eapply extends_trans; [|exact He1]. split; simpl; [done | lia]. }
  split; [done|]. split; [done|]. split; [|done].
  specialize (Hn1 ltac:(lia)). change (Z.to_nat 3) with 3%nat in Hn. lia.
Qed.

Lemma is_Some_truthy (reference_def : option cell) :
  is_Some (if truthy reference_def then reference_def else None)
  ↔ truthy reference_def = true.
Proof.
  destruct (truthy reference_def) eqn:E.
  - split; [done|]. intros _. destruct reference_def; [by eexists | done].
  - split; [by intros [? ?] | done].
Qed.

Lemma records_of_has_reference ref_df (words : list cell) (defs : list str) :
  length defs = length words →
  Exists (λ r : gmap string cell, is_Some (r !! "reference_definition"))
    (records_of ref_df words defs)
  ↔ Exists (λ word, truthy (lookup_value ref_df word) = true) words.
Proof.
  revert defs. induction words as [|word rest IH]; intros [|d defs] Hl;
    simpl in *; try done.
  - by rewrite !Exists_nil.
  - unfold records_of in *. simpl.
    rewrite !Exists_cons, make_result_reference, is_Some_truthy.
    by rewrite IH by lia.
Qed.

Lemma truthy_lookup_first_definition ref_df (word : str) :
  reference_columns ref_df →
  truthy (lookup_value ref_df (CStr word)) = true
  ↔ ∃ d, first_definition ref_df word d ∧ counts_as_true d.
Proof.
  intros Hcols. split.
  - destruct (lookup_value ref_df (CStr word)) as [d|] eqn:E; [|done].
    intros Ht. exists d. split.
    + by apply lookup_value_first_definition.
    + by apply truthy_counts_as_true.
  - intros (d & Hd & Ht).
    apply lookup_value_first_definition in Hd; [|done].
    rewrite Hd. by apply truthy_counts_as_true.
Qed.

(** X14.  The columns of the result, for a reference table with its two
    columns: none for an empty word list; otherwise [word] and
    [generated_definition], followed by [reference_definition] exactly
    when, for some word of the list, the first row of the table that
    carries the word has a definition cell that counts as true. *)
Theorem generate_definitions_columns (words : list str) ref_df st :
  reference_columns ref_df →
  ∃ df st',
    generate_definitions w (CStr <$> words) ref_df st = (Ok df, st')
    ∧ (words = [] → columns df = [])
    ∧ (words ≠ [] →
       ((∃ (word : str) (d : cell), word ∈ words ∧ first_definition ref_df word d
                   ∧ counts_as_true d)
        ∧ columns df = ["word"; "generated_definition"; "reference_definition"])
       ∨ ((¬ ∃ (word : str) (d : cell), word ∈ words ∧ first_definition ref_df word d
                       ∧ counts_as_true d)
          ∧ columns df = ["word"; "generated_definition"])).
Proof.
  intros Hcols.
  destruct (generate_definitions_cases (CStr <$> words) ref_df st)
    as (r & st' & -> & _ & [(_ & defs & -> & Hl)|(Hex & _)]).
  2: { exfalso. apply Exists_exists in Hex as (word & _ & df & -> & Hfail).
       destruct Hcols as [Hw Hd]. by destruct Hfail as [|[? _]]. }
  eexists _, st'. split; [reflexivity|].
  unfold pd_DataFrame. cbn [columns].
  pose proof (records_of_has_reference ref_df (CStr <$> words) defs Hl) as Href.
  assert (Exists (λ word, truthy (lookup_value ref_df word) = true)
            (CStr <$> words)
          ↔ ∃ (word : str) (d : cell), word ∈ words ∧ first_definition ref_df word d
                      ∧ counts_as_true d) as Hspec.
  { rewrite Exists_fmap, Exists_exists. split.
    - intros (text & Hin & Ht).
      apply truthy_lookup_first_definition in Ht as (d & Hd & Ht); [|done].
      by exists text, d.
    - intros (text & d & Hin & Hd & Ht). exists text. split; [done|].
      apply truthy_lookup_first_definition; [done|]. by exists d. }
  rewrite Hspec in Href. clear Hspec.
  destruct words as [|text rest]; [by split|].
  destruct defs as [|d defs]; [done|]. split; [done|]. intros _.
  rewrite fmap_cons in *.
  set (rs := records_of ref_df (CStr text :: (CStr <$> rest)) (d :: defs))
    in *.
  assert (∀ key, is_Some (make_result (CStr text) d
                            (lookup_value ref_df (CStr text)) !! key) →
                 Exists (λ r : gmap string cell, is_Some (r !! key)) rs)
    as Hhead.
  { intros key H. by apply Exists_cons_hd. }
  rewrite filter_cons_True
    by (apply Hhead; rewrite make_result_word; by eexists).
  rewrite filter_cons_True
    by (apply Hhead; rewrite make_result_generated; by eexists).
  destruct (decide (Exists (λ r : gmap string cell,
                              is_Some (r !! "reference_definition")) rs))
    as [Hyes|Hno].
  - left. split; [by apply Href|]. by rewrite filter_cons_True.
  - right. split; [by rewrite <- Href|]. by rewrite filter_cons_False.
Qed.

(** X15.  Every record has the word and a generated definition, the
    failure text included, and no field besides [word],
    [generated_definition] and [reference_definition]. *)
Theorem records_have_three_fields_at_most (words : list cell) ref_df st :
  reference_columns ref_df →
  ∃ df st',
    generate_definitions w words ref_df st = (Ok df, st')
    ∧ Forall2
        (λ word (record : gmap string cell),
           record !! "word" = Some word
           ∧ is_Some (record !! "generated_definition")
           ∧ dom record
             ⊆ ({["word"; "generated_definition"; "reference_definition"]}
                : gset string))
        words (rows df).
Proof.
  intros Hcols.
  destruct (generate_definitions_returns w words ref_df st Hcols)
    as (df & st' & -> & _ & H).
  exists df, st'. split; [done|].
  eapply Forall2_impl; [exact H|].
  intros word record [d ->]. clear H Hcols.
  split; [apply make_result_word|].
  split; [rewrite make_result_generated; by eexists|].
  unfold make_result.
  destruct (lookup_value ref_df word) as [value|];
    [destruct (truthy (Some value))|];
    rewrite ?dom_insert_L, ?dom_singleton_L; set_solver.
Qed.

(** X16.  In a table with its two columns the lookup of a text finds a
    definition exactly when some row of the table carries the word,
    character for character; what it finds is the definition cell of such
    a row; without a table it finds nothing. *)
Theorem reference_lookup_finds_rows (df : DataFrame) (word : str) :
  "word" ∈ columns df →
  "definition" ∈ columns df →
  ((∃ d, reference_lookup (Some df) (CStr word) = Ok (Some d))
   ↔ ∃ row, row ∈ rows df ∧ row !! "word" = Some (CStr word))
  ∧ (∀ d, reference_lookup (Some df) (CStr word) = Ok (Some d) →
          ∃ row, row ∈ rows df ∧ row !! "word" = Some (CStr word)
                 ∧ frame_cell row "definition" = d)
  ∧ reference_lookup None (CStr word) = Ok None.
Proof.
  intros Hw Hd. unfold reference_lookup.
  rewrite !bool_decide_eq_true_2 by done.
  destruct (filter _ (rows df)) as [|row found] eqn:E.
  - split; [|split; [done|done]]. split; [by intros [d H]|].
    intros (row & Hin & Hrow).
    assert (row ∈ filter (λ row, py_eq (frame_cell row "word") (CStr word)
                                 = true) (rows df)) as H.
    { apply list_elem_of_filter. split; [|done]. by apply row_matches_text. }
    rewrite E in H. by apply elem_of_nil in H.
  - assert (row ∈ filter (λ row, py_eq (frame_cell row "word") (CStr word)
                                 = true) (rows df)) as H
      by (rewrite E; left).
    apply list_elem_of_filter in H as [Hrow Hin].
    apply row_matches_text in Hrow.
    split; [|split; [|done]].
    + split; [intros _; by exists row | by eexists].
    + intros d [= <-]. by exists row.
Qed.

End BatchEffects.

(** ** Loading the input files *)

Section Loading.

Implicit Types (w : World) (st : State).

Ltac run :=
  unfold load_data, try_except, bind, read_csv, lift, ret, print, emit,
    extends, frame_column; simpl.

Ltac finish :=
  simpl; rewrite <- ?app_assoc; repeat split; simpl; try done; try lia.

(** The loader never raises, sends no request and writes no file; it
    reads [word.csv] first and [reference.csv] only when the words were
    loaded. *)
Lemma load_data_run w st :
  ∃ loaded st' evs,
    load_data w st = (Ok loaded, st')
    ∧ extends st st' evs ∧ files st' = files st
    ∧ requests_of evs = [] ∧ sleeps_of evs = [] ∧ writes_of evs = []
    ∧ ((∃ words ref, inputs_load w words ref
                     ∧ loaded = (Some words, Some ref)
                     ∧ reads_of evs = ["word.csv"; "reference.csv"])
       ∨ (loaded = (None, None)
          ∧ (∀ words ref, ¬ inputs_load w words ref)
          ∧ reads_of evs
            = match word_csv w with
              | Ok wf => if bool_decide ("word" ∈ columns wf)
                         then ["word.csv"; "reference.csv"]
                         else ["word.csv"]
              | Raised _ => ["word.csv"]
              end)).
Proof.
  unfold inputs_load. run.
  destruct (word_csv w) as [wf|e1] eqn:E1; simpl.
  2: { destruct e1; simpl; eexists (None, None), _;
         (eexists; split; [reflexivity|]); finish;
         right; finish; by intros ? ? (? & ? & _). }
  case_bool_decide as E2; simpl.
  2: { eexists (None, None), _. eexists. split; [reflexivity|]. finish.
       right. finish. intros ? ? (? & [= <-] & ? & _). congruence. }
  destruct (reference_csv w) as [ref|e3] eqn:E3; simpl.
  - eexists (Some _, Some ref), _. eexists. split; [reflexivity|]. finish.
    left. eexists _, ref. finish. by exists wf.
  - destruct e3; simpl; eexists (None, None), _;
      (eexists; split; [reflexivity|]); finish;
      right; finish; by intros ? ? (? & _ & _ & _ & ?).
Qed.

(** X17.  Loading is all or nothing and never raises: the loader returns
    the word column and the reference table when both files are read and
    the word file has a [word] column, and the pair (None, None) in every
    other case; it sends no request and writes no file. *)
Theorem load_data_all_or_nothing w st :
  ∃ loaded st' evs,
    load_data w st = (Ok loaded, st')
    ∧ extends st st' evs ∧ files st' = files st
    ∧ requests_of evs = [] ∧ writes_of evs = []
    ∧ (∀ words ref,
         loaded = (Some words, Some ref) ↔ inputs_load w words ref)
    ∧ (loaded = (None, None) ↔ ∀ words ref, ¬ inputs_load w words ref).
Proof.
  destruct (load_data_run w st)
    as (loaded & st' & evs & H & He & Hf & Hq & _ & Hw & Hcases).
  exists loaded, st', evs. do 5 (split; [done|]).
  destruct Hcases as [(words & ref & Hin & -> & _)|(-> & Hno & _)].
  - split.
    + intros words' ref'. split; [by intros [= <- <-]|].
      intros (wf' & E1' & _ & E2' & E3'). destruct Hin as (wf & E1 & _ & E2 & E3).
      congruence.
    + split; [done|]. intros Hno. by destruct (Hno words ref).
  - split; [|done]. intros words ref. split; [done|].
    intros Hin. by destruct (Hno words ref).
Qed.

(** X18.  The word file is read first; when it cannot be read or has no
    [word] column, the reference file is not read at all. *)
Theorem load_data_reads_in_order w st :
  ∃ loaded st' evs,
    load_data w st = (Ok loaded, st')
    ∧ extends st st' evs
    ∧ reads_of evs
      = match word_csv w with
        | Ok wf => if bool_decide ("word" ∈ columns wf)
                   then ["word.csv"; "reference.csv"]
                   else ["word.csv"]
        | Raised _ => ["word.csv"]
        end.
Proof.
  destruct (load_data_run w st)
    as (loaded & st' & evs & H & He & _ & _ & _ & _ & Hcases).
  exists loaded, st', evs. do 2 (split; [done|]).
  destruct Hcases as [(words & ref & (wf & -> & Hcol & _) & _ & Hr)|(_ & _ & Hr)];
    [|done].
  by rewrite bool_decide_eq_true_2.
Qed.

End Loading.

(** ** Requests of the probe and outcomes of the entry point *)

Section Pipeline.

Context {U : Unicode}.

Implicit Types (w : World) (st : State).

Ltac run :=
  unfold check_ollama_connection, try_except, bind, requests_get, send,
    lift, ret, print, emit, extends; simpl.

Ltac finish :=
  simpl; rewrite <- ?app_assoc; repeat split; simpl; try done; try lia.

Lemma listed_model_names_raises (reply : response) e :
  listed_model_names reply = Raised e →
  e = JSONDecodeError ∨ e = AttributeError ∨ e = TypeError.
Proof.
  unfold listed_model_names, response_json.
  destruct (body reply) as [data|]; simpl; [|intros [= <-]; by left].
  destruct data as [| | | | |d]; simpl;
    try (intros [= <-]; right; by left).
  destruct (default (JList []) (d !! "models")) as [| | |t|l|m]; simpl;
    try (intros [= <-]; right; by right).
  - induction t as [|c t IH]; simpl; [done|]. intros [= <-]. right. by left.
  - induction l as [|x l IH]; simpl; [done|].
    destruct x; simpl; try (intros [= <-]; right; by left).
    destruct (names_of_items l); [done|].
    intros [= <-]. by apply IH.
  - destruct (map_to_list m) as [|kv l]; simpl; [done|].
    intros [= <-]. right. by left.
Qed.

(** The probe sends the version request, and the listing request only
    after a version reply with status 200; it never pauses, reads or
    writes. *)
Lemma check_ollama_connection_run w st :
  ∃ b st' evs,
    check_ollama_connection w st = (Ok b, st')
    ∧ extends st st' evs ∧ files st' = files st
    ∧ requests_of evs
      = (if version_ok w (requests st)
         then [GET version_url; GET tags_url] else [GET version_url])
    ∧ sleeps_of evs = [] ∧ reads_of evs = [] ∧ writes_of evs = [].
Proof.
  unfold version_ok. run.
  destruct (http w (requests st) (GET version_url)) as [r1|e1]; simpl.
  2: { destruct (is_ConnectionError e1); simpl; eexists false, _;
         (eexists; split; [reflexivity|]); finish. }
  destruct (status_code r1 =? 200); simpl.
  2: { eexists false, _. eexists. split; [reflexivity|]. finish. }
  destruct (http w (S (requests st)) (GET tags_url)) as [r2|e2]; simpl.
  2: { destruct (is_ConnectionError e2); simpl; eexists false, _;
         (eexists; split; [reflexivity|]); finish. }
  destruct (status_code r2 =? 200); simpl.
  2: { eexists false, _. eexists. split; [reflexivity|]. finish. }
  destruct (listed_model_names r2) as [names|e3]; simpl.
  2: { destruct (is_ConnectionError e3); simpl; eexists false, _;
         (eexists; split; [reflexivity|]); finish. }
  destruct (existsb (str_eq_json MODEL_NAME) names); simpl;
    eexists _, _; (eexists; split; [reflexivity|]); finish.
Qed.

(** X19.  The probe sends one request when the version endpoint does not
    answer with status 200, and two otherwise, the version request
    first; it never pauses and touches no file. *)
Theorem probe_requests w st :
  ∃ b st' evs,
    check_ollama_connection w st = (Ok b, st')
    ∧ extends st st' evs ∧ files st' = files st
    ∧ head (requests_of evs) = Some (GET version_url)
    ∧ (version_ok w (requests st) = false →
       requests_of evs = [GET version_url] ∧ b = false)
    ∧ (version_ok w (requests st) = true →
       requests_of evs = [GET version_url; GET tags_url])
    ∧ sleeps_of evs = [] ∧ reads_of evs = [] ∧ writes_of evs = [].
Proof.
  destruct (check_ollama_connection_run w st)
    as (b & st' & evs & H & He & Hf & Hq & Hs & Hr & Hw).
  destruct (check_ollama_connection_cases w st)
    as (b' & st'' & H' & Hb & _).
  rewrite H in H'. injection H' as <- <-.
  exists b, st', evs. do 3 (split; [done|]).
  destruct (version_ok w (requests st)) eqn:Hv; rewrite Hq.
  - by repeat split.
  - split; [done|]. split; [|by repeat split]. intros _. split; [done|].
    destruct b; [|done]. exfalso.
    destruct Hb as [Hb _]. destruct (Hb eq_refl) as (r1 & ? & ? & ? & ? & E1 & S1 & _).
    unfold version_ok in Hv. rewrite E1 in Hv.
    apply Z.eqb_neq in Hv. done.
Qed.

(** X20.  A listing with status 200 from which the names cannot be read
    (a body that is not JSON or not an object, models that cannot be
    iterated, a descriptor that is not an object) makes the probe return
    [False] after printing the error, which is a JSON, attribute or type
    error. *)
Theorem unreadable_listing_is_reported w st
  (version_reply tags_reply : response) e :
  http w (requests st) (GET version_url) = Ok version_reply →
  status_code version_reply = 200 →
  http w (S (requests st)) (GET tags_url) = Ok tags_reply →
  status_code tags_reply = 200 →
  listed_model_names tags_reply = Raised e →
  (e = JSONDecodeError ∨ e = AttributeError ∨ e = TypeError)
  ∧ ∃ st',
      check_ollama_connection w st = (Ok false, st')
      ∧ trace st'
        = trace st
          ++ [Requested (GET version_url); Printed MsgOllamaRunning;
              Requested (GET tags_url); Printed (MsgErrorChecking e)].
Proof.
  intros E1 S1 E2 S2 L.
  pose proof (listed_model_names_raises tags_reply e L) as He.
  split; [done|]. run.
  apply Z.eqb_eq in S1, S2.
  rewrite E1. simpl. rewrite S1. simpl. rewrite E2. simpl. rewrite S2. simpl.
  rewrite L. simpl.
  assert (is_ConnectionError e = false) as ->
    by (by destruct He as [->|[->| ->]]).
  simpl. eexists. split; [reflexivity|]. simpl. by rewrite <- !app_assoc.
Qed.

Lemma records_of_word_column (ref_df : option DataFrame) (words : list cell)
  (defs : list str) :
  length defs = length words →
  (λ record : gmap string cell, record !! "word")
  <$> records_of ref_df words defs = Some <$> words.
Proof.
  intros Hl. by eapply records_word_column, records_of_Forall2.
Qed.

(** The four ways [main] can end. *)
Lemma main_cases w st :
  ∃ r st',
    main w st = (r, st')
    ∧ ((r = Ok tt ∧ files st' = files st
        ∧ (¬ probe_succeeds w (requests st)
           ∨ ∀ words ref, ¬ inputs_load w words ref))
       ∨ (∃ words ref df,
            r = Ok tt
            ∧ probe_succeeds w (requests st) ∧ inputs_load w words ref
            ∧ Forall (λ word, ¬ lookup_fails (Some ref) word) words
            ∧ output_writable w = true
            ∧ files st' = <[output_filename := df]> (files st)
            ∧ (λ record : gmap string cell, record !! "word") <$> rows df
              = Some <$> words)
       ∨ (∃ words ref,
            r = Raised PermissionError
            ∧ probe_succeeds w (requests st) ∧ inputs_load w words ref
            ∧ Forall (λ word, ¬ lookup_fails (Some ref) word) words
            ∧ output_writable w = false
            ∧ files st' = files st)
       ∨ (∃ words ref,
            r = Raised KeyError
            ∧ probe_succeeds w (requests st) ∧ inputs_load w words ref
            ∧ Exists (lookup_fails (Some ref)) words
            ∧ files st' = files st)).
Proof.
  unfold main. unfold bind at 1 2, print, emit. cbn [fst snd].
  unfold bind at 1.
  match goal with |- context [check_ollama_connection w ?s] =>
    destruct (check_ollama_connection_cases w s)
      as (b & st1 & -> & Hb & Hf1 & _) end.
  cbn [requests files] in Hb, Hf1.
  destruct b; cbn [negb].
  2: { exists (Ok tt), st1. split; [done|]. left.
       split; [done|]. split; [done|]. left.
       intros H. apply Hb in H. done. }
  assert (probe_succeeds w (requests st)) as Hprobe by by apply Hb.
  unfold bind at 1.
  destruct (load_data_run w st1)
    as (loaded & st2 & evs2 & -> & _ & Hf2 & _ & _ & _ & Hcases).
  destruct Hcases as [(words & ref & Hin & -> & _)|(-> & Hno & _)];
    cbn [fst snd].
  2: { exists (Ok tt), st2. split; [done|]. left.
       split; [done|]. split; [congruence|]. by right. }
  unfold bind at 1.
  destruct (generate_definitions_cases w words (Some ref) st2)
    as (r & st3 & -> & Hf3 & [(Hall & defs & -> & Hl)|(Hex & ->)]).
  2: { exists (Raised KeyError), st3. split; [done|]. right. right. right.
       exists words, ref. do 4 (split; [done|]). congruence. }
  unfold bind at 1, to_csv.
  destruct (output_writable w) eqn:Hwritable.
  - unfold bind, print, emit. cbn [fst snd].
    eexists (Ok tt), _. split; [reflexivity|]. right. left.
    exists words, ref, (pd_DataFrame (records_of (Some ref) words defs)).
    do 5 (split; [done|]).
    split; [cbn [files]; congruence|].
    cbn [rows pd_DataFrame]. by apply records_of_word_column.
  - exists (Raised PermissionError), st3. split; [done|]. right. right. left.
    exists words, ref. do 5 (split; [done|]). congruence.
Qed.

Lemma inputs_load_unique w (words words' : list cell) (ref ref' : DataFrame) :
  inputs_load w words ref → inputs_load w words' ref' →
  words' = words ∧ ref' = ref.
Proof.
  intros (wf & E1 & _ & -> & E3) (wf' & E1' & _ & -> & E3').
  split; congruence.
Qed.

Lemma columns_no_lookup_fails (ref : DataFrame) (words : list cell) :
  "word" ∈ columns ref → "definition" ∈ columns ref →
  ¬ Exists (lookup_fails (Some ref)) words.
Proof.
  intros Hw Hd (word & _ & df & [= <-] & [H|[H _]])%Exists_exists; done.
Qed.

(** X21.  When the probe succeeds, both input files load, the reference
    table has its two columns and the output can be written, [main]
    writes the output file, and only it, with one row per word of the
    word file in the order of the file. *)
Theorem main_writes_the_results w st (words : list cell) (ref : DataFrame) :
  probe_succeeds w (requests st) →
  inputs_load w words ref →
  "word" ∈ columns ref →
  "definition" ∈ columns ref →
  output_writable w = true →
  ∃ df st',
    main w st = (Ok tt, st')
    ∧ files st' = <[output_filename := df]> (files st)
    ∧ length (rows df) = length words
    ∧ (λ record : gmap string cell, record !! "word") <$> rows df
      = Some <$> words.
Proof.
  intros Hprobe Hin Hcw Hcd Hwritable.
  destruct (main_cases w st)
    as (r & st' & Hmain
        & [(_ & _ & [H|H])
          |[(words' & ref' & df & -> & _ & Hin' & _ & _ & Hf & Hrows)
           |[(? & ? & _ & _ & _ & _ & H & _)
            |(words' & ref' & _ & _ & Hin' & Hex & _)]]]).
  - done.
  - by destruct (H words ref).
  - destruct (inputs_load_unique w words words' ref ref' Hin Hin') as [-> ->].
    exists df, st'. do 2 (split; [done|]). split; [|done].
    apply (f_equal length) in Hrows. by rewrite !length_fmap in Hrows.
  - congruence.
  - destruct (inputs_load_unique w words words' ref ref' Hin Hin') as [-> ->].
    by destruct (columns_no_lookup_fails ref words Hcw Hcd).
Qed.

(** X22.  When the probe succeeds but the input files do not load,
    [main] returns without a generation request and writes nothing. *)
Theorem main_stops_when_load_fails w st :
  probe_succeeds w (requests st) →
  (∀ words ref, ¬ inputs_load w words ref) →
  ∃ st', main w st = (Ok tt, st') ∧ files st' = files st
         ∧ requests st' = (requests st + 2)%nat.
Proof.
  intros Hprobe Hno.
  unfold main. unfold bind at 1 2, print, emit. cbn [fst snd].
  unfold bind at 1.
  match goal with |- context [check_ollama_connection w ?s] =>
    destruct (check_ollama_connection_cases w s)
      as (b & st1 & Hcheck & Hb & Hf1 & _);
    destruct (check_ollama_connection_run w s)
      as (b' & st1' & evs1 & Hcheck' & [_ Hn1] & _ & Hq1 & _) end.
  rewrite Hcheck in Hcheck'. injection Hcheck' as <- <-.
  rewrite Hcheck. cbn [requests files] in Hb, Hf1, Hn1, Hq1.
  assert (b = true) as -> by by apply Hb.
  assert (version_ok w (requests st) = true) as Hv.
  { destruct Hprobe as (r1 & ? & ? & ? & ? & E1 & S1 & _). unfold version_ok.
    rewrite E1. by apply Z.eqb_eq. }
  rewrite Hv in Hq1. rewrite Hq1 in Hn1. cbn [negb].
  unfold bind at 1.
  destruct (load_data_run w st1)
    as (loaded & st2 & evs2 & -> & [_ Hn2] & Hf2 & Hq2 & _ & _ & Hcases).
  destruct Hcases as [(words & ref & Hin & _)|(-> & _)].
  { by destruct (Hno words ref). }
  cbn [fst]. exists st2. split; [done|]. split; [congruence|].
  rewrite Hn2, Hq2, Hn1. simpl. lia.
Qed.

(** X23.  When everything succeeds (the reference table has its two
    columns) but the output file cannot be written, [main] ends with the
    uncaught error and no file is written: the generated definitions are
    lost. *)
Theorem main_loses_results_when_unwritable w st
  (words : list cell) (ref : DataFrame) :
  probe_succeeds w (requests st) →
  inputs_load w words ref →
  "word" ∈ columns ref →
  "definition" ∈ columns ref →
  output_writable w = false →
  ∃ st', main w st = (Raised PermissionError, st') ∧ files st' = files st.
Proof.
  intros Hprobe Hin Hcw Hcd Hwritable.
  destruct (main_cases w st)
    as (r & st' & Hmain
        & [(_ & _ & [H|H])
          |[(? & ? & ? & _ & _ & _ & _ & H & _)
           |[(? & ? & -> & _ & _ & _ & _ & Hf)
            |(words' & ref' & _ & _ & Hin' & Hex & _)]]]).
  - done.
  - by destruct (H words ref).
  - congruence.
  - by exists st'.
  - destruct (inputs_load_unique w words words' ref ref' Hin Hin') as [-> ->].
    by destruct (columns_no_lookup_fails ref words Hcw Hcd).
Qed.

(** X24.  [main] raises nothing but the error of writing the output file
    and the [KeyError] of a reference table in which the lookup of a word
    of the word file cannot be done, and whatever way it ends it leaves
    every file other than the output file as it was. *)
Theorem main_touches_only_the_output w st (r : result unit) st' :
  main w st = (r, st') →
  (∀ e, r = Raised e →
        (e = PermissionError ∧ output_writable w = false)
        ∨ (e = KeyError
           ∧ ∃ words ref, inputs_load w words ref
                          ∧ Exists (lookup_fails (Some ref)) words))
  ∧ ∀ path, path ≠ output_filename → files st' !! path = files st !! path.
Proof.
  intros Hmain.
  destruct (main_cases w st)
    as (r' & st'' & H
        & [(Hr & Hf & _)
          |[(? & ? & df & Hr & _ & _ & _ & _ & Hf & _)
           |[(? & ? & Hr & _ & _ & _ & Hw & Hf)
            |(words & ref & Hr & _ & Hin & Hex & Hf)]]]);
    rewrite Hmain in H; injection H as <- <-; subst r.
  - split; [done|]. intros path _. by rewrite Hf.
  - split; [done|]. intros path Hpath. rewrite Hf.
    by rewrite lookup_insert_ne.
  - split; [intros e [= <-]; by left|]. intros path _. by rewrite Hf.
  - split; [|intros path _; by rewrite Hf].
    intros e [= <-]. right. split; [done|]. by exists words, ref.
Qed.

(** X27.  When the probe succeeds and both input files load but the
    reference file has no column [word], [main] ends with an uncaught
    [KeyError] as soon as the word file has a word, and writes
    nothing. *)
Theorem main_raises_without_word_column w st
  (words : list cell) (ref : DataFrame) :
  probe_succeeds w (requests st) →
  inputs_load w words ref →
  words ≠ [] →
  "word" ∉ columns ref →
  ∃ st', main w st = (Raised KeyError, st') ∧ files st' = files st.
Proof.
  intros Hprobe Hin Hwords Hcol.
  assert (Forall (lookup_fails (Some ref)) words) as Hfails.
  { apply Forall_forall. intros word _. exists ref. split; [done | by left]. }
  destruct (main_cases w st)
    as (r & st' & Hmain
        & [(_ & _ & [H|H])
          |[(words' & ref' & ? & _ & _ & Hin' & Hall & _)
           |[(words' & ref' & _ & _ & Hin' & Hall & _)
            |(? & ? & -> & _ & _ & _ & Hf)]]]).
  - done.
  - by destruct (H words ref).
  - destruct (inputs_load_unique w words words' ref ref' Hin Hin') as [-> ->].
    destruct words as [|word rest]; [done|].
    apply Forall_cons in Hall as [Hno _], Hfails as [Hyes _]. done.
  - destruct (inputs_load_unique w words words' ref ref' Hin Hin') as [-> ->].
    destruct words as [|word rest]; [done|].
    apply Forall_cons in Hall as [Hno _], Hfails as [Hyes _]. done.
  - by exists st'.
Qed.

End Pipeline.

(** * Runs of the program

    The runs below are on texts of ASCII characters, with the table of
    Python for them. *)

Lemma latin1_lower_colon c : latin1_lower c = colon ↔ c = colon.
Proof.
  unfold latin1_lower, colon.
  destruct (_ || _)%bool eqn:E; [|done].
  rewrite orb_true_iff, !andb_true_iff, !N.leb_le in E. lia.
Qed.

Lemma latin1_lower_period c : latin1_lower c = period ↔ c = period.
Proof.
  unfold latin1_lower, period.
  destruct (_ || _)%bool eqn:E; [|done].
  rewrite orb_true_iff, !andb_true_iff, !N.leb_le in E. lia.
Qed.

(** The table of Python below U+0100 has the properties the general
    theorems ask for. *)
Lemma latin1_laws : UnicodeLaws latin1.
Proof.
  split; try reflexivity.
  - intros c. cbn [ci_match latin1].
    destruct (N.eqb_spec colon c) as [<-|H'].
    + apply N.eqb_refl.
    + apply N.eqb_neq. intros H. symmetry in H.
      apply (proj1 (latin1_lower_colon c)) in H. congruence.
  - intros c. cbn [ci_match latin1].
    destruct (N.eqb_spec period c) as [<-|H'].
    + apply N.eqb_refl.
    + apply N.eqb_neq. intros H. symmetry in H.
      apply (proj1 (latin1_lower_period c)) in H. congruence.
  - intros c. cbn [isdigit isspace latin1].
    unfold latin1_isdigit, latin1_isspace.
    rewrite andb_true_iff, !N.leb_le. intros [H1 H2].
    rewrite !orb_false_iff, !andb_false_iff, !N.leb_gt, !N.eqb_neq. lia.
Qed.

Section Runs.

#[local] Existing Instance latin1.

Example clean_definition_komputer :
  clean_definition (txt "komputer") (txt "komputer: alat untuk mengolah data")
  = txt "alat untuk mengolah data".
Proof. reflexivity. Qed.

Example clean_definition_biru :
  clean_definition (txt "biru") (txt "Definisi: warna dasar")
  = txt "warna dasar".
Proof. reflexivity. Qed.

(** C7.  Cleaning "Kudus 2. suci" for the word "kudus" gives "suci": the
    word is removed whatever its case, together with the number and the
    period that follow it. *)
Theorem clean_definition_kudus :
  clean_definition (txt "kudus") (txt "Kudus 2. suci") = txt "suci".
Proof. reflexivity. Qed.

Lemma clean_definition_idempotent_when_clean_witness :
  nothing_to_clean (txt "kudus")
    (clean_definition (txt "kudus") (txt "Kudus 2. suci")) = true
  ∧ clean_definition (txt "kudus")
      (clean_definition (txt "kudus") (txt "Kudus 2. suci"))
    = clean_definition (txt "kudus") (txt "Kudus 2. suci").
Proof.
  split; [reflexivity|].
  apply (clean_definition_idempotent_when_clean (txt "kudus") (txt "Kudus 2. suci")).
  reflexivity.
Defined.

(** C2 as stated fails: a text with two leading numbers loses one of them
    at each cleaning. *)
Lemma clean_definition_not_idempotent :
  clean_definition (txt "kudus") (txt "1. 2. suci") = txt "2. suci"
  ∧ clean_definition (txt "kudus")
      (clean_definition (txt "kudus") (txt "1. 2. suci")) = txt "suci"
  ∧ clean_definition (txt "kudus")
      (clean_definition (txt "kudus") (txt "1. 2. suci"))
    ≠ clean_definition (txt "kudus") (txt "1. 2. suci").
Proof.
  split; [reflexivity|]. split; [reflexivity|].
  intros H. vm_compute in H. discriminate H.
Qed.

Lemma two_rows_for_meja_columns : reference_columns (Some two_rows_for_meja).
Proof. split; [left | right; left]. Defined.

Lemma other_headers_columns : "word" ∉ columns other_headers.
Proof.
  intros H. cbn [columns other_headers] in H.
  rewrite !elem_of_cons, elem_of_nil in H.
  by destruct H as [H|[H|H]].
Qed.

Lemma generate_definitions_one_row_per_word_witness :
  [CStr (txt "meja"); CStr (txt "kudus")] ≠ []
  ∧ ∃ df st',
      generate_definitions offline [CStr (txt "meja"); CStr (txt "kudus")]
        None initial = (Ok df, st')
      ∧ length (rows df) = length [CStr (txt "meja"); CStr (txt "kudus")]
      ∧ (λ record : gmap string cell, record !! "word") <$> rows df
        = Some <$> [CStr (txt "meja"); CStr (txt "kudus")].
Proof.
  split; [discriminate|].
  apply (generate_definitions_one_row_per_word offline
           [CStr (txt "meja"); CStr (txt "kudus")] None initial).
  - discriminate.
  - exact I.
Defined.

Lemma reference_field_iff_first_match_true_witness :
  reference_columns (Some two_rows_for_meja)
  ∧ ∃ df st',
      generate_definitions offline (CStr <$> [txt "kudus"; txt "meja"])
        (Some two_rows_for_meja) initial = (Ok df, st')
      ∧ Forall2
          (λ (word : str) (record : gmap string cell),
             ∀ d, record !! "reference_definition" = Some d
                  ↔ first_definition (Some two_rows_for_meja) word d
                    ∧ counts_as_true d)
          [txt "kudus"; txt "meja"] (rows df).
Proof.
  split; [apply two_rows_for_meja_columns|].
  apply (reference_field_iff_first_match_true offline
           [txt "kudus"; txt "meja"] (Some two_rows_for_meja) initial).
  apply two_rows_for_meja_columns.
Defined.

(** C1 as stated fails: with the reference file of the two lines
    [word,definition] and [meja,0] the word "meja" is found in the table,
    in its first row, and its record has no reference field, because the
    definition found is the number 0. *)
Lemma reference_field_absent_despite_match :
  first_definition (Some meja_defined_as_zero) (txt "meja") (CNum 0%Qc)
  ∧ reference_lookup (Some meja_defined_as_zero) (CStr (txt "meja"))
    = Ok (Some (CNum 0%Qc))
  ∧ match (generate_definitions offline [CStr (txt "meja")]
             (Some meja_defined_as_zero) initial).1 with
    | Ok df =>
        (λ record : gmap string cell, record !! "reference_definition")
          <$> rows df = [None]
    | Raised _ => False
    end.
Proof.
  split; [|split; [reflexivity | vm_compute; reflexivity]].
  exists meja_defined_as_zero, [],
    {[ "word" := CStr (txt "meja"); "definition" := CNum 0%Qc ]}, [].
  split; [reflexivity|]. split; [reflexivity|]. split; [constructor|].
  split; reflexivity.
Qed.

Lemma first_matching_row_wins_witness :
  reference_lookup (Some two_rows_for_meja) (CStr (txt "meja"))
  = Ok (Some (CStr (txt "perabot datar berkaki")))
  ∧ ∃ df st' record,
      generate_definitions offline (CStr <$> [txt "kudus"; txt "meja"])
        (Some two_rows_for_meja) initial = (Ok df, st')
      ∧ rows df !! 1%nat = Some record
      ∧ record !! "reference_definition"
        = Some (CStr (txt "perabot datar berkaki")).
Proof.
  assert (Forall (λ r : gmap string cell, r !! "word" ≠ Some (CStr (txt "meja")))
            [ {[ "word" := CStr (txt "apel"); "definition" := CStr (txt "buah") ]} ])
    as Hb.
  { repeat constructor. intros H. vm_compute in H. discriminate H. }
  exact (first_matching_row_wins offline [txt "kudus"; txt "meja"]
           two_rows_for_meja
           [ {[ "word" := CStr (txt "apel"); "definition" := CStr (txt "buah") ]} ]
           [ {[ "word" := CStr (txt "meja"); "definition" := CStr (txt "papan") ]} ]
           {[ "word" := CStr (txt "meja");
              "definition" := CStr (txt "perabot datar berkaki") ]}
           (txt "meja") 1%nat initial
           (proj1 two_rows_for_meja_columns) (proj2 two_rows_for_meja_columns)
           eq_refl Hb eq_refl eq_refl).
Defined.

Lemma three_failures_give_failure_text_witness :
  (∀ i, (i < 3)%nat →
        attempt_fails
          (http flaky (requests initial + i)%nat
             (POST generate_url (CStr (txt "meja")))))
  ∧ ∃ st', generate_definition_ollama flaky (CStr (txt "meja")) 3 initial
           = (Ok (txt "Error: Failed to generate definition after 3 attempts"),
              st').
Proof.
  assert (∀ i, (i < 3)%nat →
            attempt_fails
              (http flaky (requests initial + i)%nat
                 (POST generate_url (CStr (txt "meja"))))) as H.
  { intros i Hi. destruct i as [|[|[|i]]]; simpl.
    - left. discriminate.
    - exact I.
    - right. exists JSONDecodeError. reflexivity.
    - lia. }
  split; [exact H|].
  exact (proj1 (three_failures_give_failure_text flaky (CStr (txt "meja"))
                  initial H)).
Defined.

Lemma missing_fields_are_defaults_witness :
  listed_model_names (Response 200 (Some (JDict listing_without_name)))
  = Ok (name_of <$> [{[ "size" := JNum 3 ]}])
  ∧ ∃ st',
      check_ollama_connection (server_listing (JDict listing_without_name))
        initial = (Ok false, st')
      ∧ trace st'
        = trace initial
          ++ [Requested (GET version_url); Printed MsgOllamaRunning;
              Requested (GET tags_url);
              Printed (MsgModelNotFound (name_of <$> [{[ "size" := JNum 3 ]}]));
              Printed MsgPleasePull].
Proof.
  apply (missing_fields_are_defaults
           (server_listing (JDict listing_without_name)) initial
           (Response 200 (Some (JDict ∅)))
           (Response 200 (Some (JDict listing_without_name)))
           listing_without_name [{[ "size" := JNum 3 ]}]).
  - reflexivity.
  - reflexivity.
  - reflexivity.
  - reflexivity.
  - reflexivity.
  - reflexivity.
  - repeat constructor. intros H. vm_compute in H. discriminate H.
Defined.

(** C10 as stated fails: a descriptor without a name does not make the
    probe return [false] when another descriptor names the model. *)
Lemma nameless_descriptor_and_model_found :
  listed_model_names (Response 200 (Some listing_nameless_then_model))
  = Ok [JStr []; JStr MODEL_NAME]
  ∧ (check_ollama_connection (server_listing listing_nameless_then_model)
       initial).1 = Ok true.
Proof. split; vm_compute; reflexivity. Qed.

Lemma main_stops_when_probe_fails_witness :
  let st1 :=
    (check_ollama_connection offline
       (after_event (Printed MsgRule)
          (after_event (Printed MsgBanner) initial))).2 in
  main offline initial = (Ok tt, st1)
  ∧ files st1 = files initial
  ∧ ∃ evs, trace st1 = trace initial ++ evs ∧ Forall probe_event evs.
Proof.
  apply (main_stops_when_probe_fails offline initial). reflexivity.
Defined.

(** ** Runs for the further properties *)

Lemma clean_definition_no_outer_space_witness :
  isspace 115%N = false.
Proof.
  apply (clean_definition_no_outer_space (txt "kudus") (txt "Kudus 2. suci")).
  left. reflexivity.
Defined.

Lemma clean_definition_blank_witness :
  clean_definition (txt "kudus") (txt "   ") = [].
Proof.
  apply (clean_definition_blank (txt "kudus") (txt "   ")). reflexivity.
Defined.

Lemma clean_definition_word_colon_witness :
  clean_definition (txt "komputer")
    (txt "Komputer" ++ [] ++ colon :: txt " " ++ txt "alat untuk mengolah data")
  = txt "alat untuk mengolah data".
Proof.
  apply (@clean_definition_word_colon latin1 latin1_laws
           (txt "komputer") (txt "Komputer")
           [] (txt " ") (txt "alat untuk mengolah data"));
    [repeat constructor | reflexivity..].
Defined.

Lemma clean_definition_word_number_witness :
  clean_definition (txt "kudus")
    (txt "Kudus" ++ txt " " ++ txt "2" ++ period :: txt " " ++ txt "suci")
  = txt "suci".
Proof.
  apply (@clean_definition_word_number latin1 latin1_laws
           (txt "kudus") (txt "Kudus")
           (txt " ") (txt "2") (txt " ") (txt "suci"));
    [repeat constructor | reflexivity..].
Defined.

Lemma clean_definition_number_witness :
  clean_definition (txt "kudus")
    (49%N :: [] ++ period :: txt " " ++ txt "suci")
  = txt "suci".
Proof.
  apply (@clean_definition_number latin1 latin1_laws
           (txt "kudus") 49%N [] (txt " ") (txt "suci"));
    reflexivity.
Defined.

Lemma clean_definition_lead_in_witness :
  clean_definition (txt "biru") (txt "Definisi:" ++ txt " " ++ txt "warna dasar")
  = txt "warna dasar".
Proof.
  apply (clean_definition_lead_in (txt "biru") (txt "definisi:")
           (txt "Definisi:") (txt " ") (txt "warna dasar"));
    [left | reflexivity..].
Defined.

Lemma generation_stops_at_first_success_witness :
  ∃ st' evs,
    generate_definition_ollama third_time_lucky (CStr (txt "kudus")) 3 initial
    = (Ok (clean_definition (txt "kudus") (txt "Kudus 2. suci")), st')
    ∧ extends initial st' evs
    ∧ requests_of evs = replicate 3 (POST generate_url (CStr (txt "kudus")))
    ∧ sleeps_of evs = replicate 2 2000.
Proof.
  apply (generation_stops_at_first_success third_time_lucky (txt "kudus")
           initial 2
           (Response 200
              (Some (JDict {[ "response" := JStr (txt " Kudus 2. suci ") ]})))
           (txt "Kudus 2. suci")).
  - lia.
  - intros i Hi. destruct i as [|[|i]]; simpl.
    + left. discriminate.
    + exact I.
    + lia.
  - reflexivity.
  - reflexivity.
  - reflexivity.
Defined.


Lemma no_retries_no_request_witness :
  generate_definition_ollama offline (CStr (txt "meja")) 0 initial
  = (Ok (failure_text 0), initial).
Proof.
  apply (no_retries_no_request offline (CStr (txt "meja")) 0 initial). lia.
Defined.

Lemma missing_response_gives_empty_witness :
  ∃ st', generate_definition_ollama (working ∅ two_rows_for_meja true)
           (CStr (txt "meja")) 3 initial
         = (Ok [], st')
         ∧ requests st' = S (requests initial).
Proof.
  apply (missing_response_gives_empty (working ∅ two_rows_for_meja true)
           (txt "meja") initial
           (Response 200 (Some (JDict ∅))) ∅);
    reflexivity.
Defined.

Lemma generated_definition_from_reply_witness :
  ∃ d st',
    generate_definition_ollama
      (working {[ "response" := JStr (txt " Meja: perabot ") ]}
         two_rows_for_meja true)
      (CStr (txt "meja")) 3 initial = (Ok d, st')
    ∧ d = clean_definition (txt "meja") (strip (txt " Meja: perabot "))
    ∧ substring_of d (txt " Meja: perabot ")
    ∧ strip d = d.
Proof.
  apply (generated_definition_from_reply
           (working {[ "response" := JStr (txt " Meja: perabot ") ]}
              two_rows_for_meja true)
           (txt "meja") initial
           (Response 200
              (Some (JDict {[ "response" := JStr (txt " Meja: perabot ") ]})))
           {[ "response" := JStr (txt " Meja: perabot ") ]}
           (txt " Meja: perabot "));
    reflexivity.
Defined.

Lemma word_that_is_no_text_fails_witness :
  ∃ st' evs,
    generate_definition_ollama
      (working {[ "response" := JStr (txt "perabot") ]} two_rows_for_meja true)
      CNaN 3 initial
    = (Ok (failure_text 3), st')
    ∧ extends initial st' evs
    ∧ requests_of evs = replicate 3 (POST generate_url CNaN)
    ∧ sleeps_of evs = [2000; 2000].
Proof.
  apply (word_that_is_no_text_fails
           (working {[ "response" := JStr (txt "perabot") ]}
              two_rows_for_meja true)
           CNaN initial).
  intros text H. discriminate H.
Defined.


Lemma batch_raises_without_word_column_witness :
  ∃ st' evs (n : nat),
    generate_definitions offline (CStr (txt "meja") :: [CStr (txt "kudus")])
      (Some other_headers) initial = (Raised KeyError, st')
    ∧ extends initial st'
        (Printed (MsgGenerating (S (length [CStr (txt "kudus")]))) :: evs)
    ∧ files st' = files initial
    ∧ requests_of evs = replicate n (POST generate_url (CStr (txt "meja")))
    ∧ (1 ≤ n ≤ 3)%nat
    ∧ Forall (λ ms, ms = 2000) (sleeps_of evs).
Proof.
  apply (batch_raises_without_word_column offline (CStr (txt "meja"))
           [CStr (txt "kudus")] other_headers initial).
  apply other_headers_columns.
Defined.

Lemma generate_definitions_columns_witness :
  ∃ df st',
    generate_definitions offline (CStr <$> [txt "kudus"; txt "meja"])
      (Some two_rows_for_meja) initial = (Ok df, st')
    ∧ ([txt "kudus"; txt "meja"] = [] → columns df = [])
    ∧ ([txt "kudus"; txt "meja"] ≠ [] →
       ((∃ (word : str) (d : cell),
           word ∈ [txt "kudus"; txt "meja"]
           ∧ first_definition (Some two_rows_for_meja) word d
           ∧ counts_as_true d)
        ∧ columns df = ["word"; "generated_definition"; "reference_definition"])
       ∨ ((¬ ∃ (word : str) (d : cell),
               word ∈ [txt "kudus"; txt "meja"]
               ∧ first_definition (Some two_rows_for_meja) word d
               ∧ counts_as_true d)
          ∧ columns df = ["word"; "generated_definition"])).
Proof.
  apply (generate_definitions_columns offline [txt "kudus"; txt "meja"]
           (Some two_rows_for_meja) initial).
  apply two_rows_for_meja_columns.
Defined.

Lemma records_have_three_fields_at_most_witness :
  ∃ df st',
    generate_definitions offline [CStr (txt "kudus"); CStr (txt "meja")]
      (Some two_rows_for_meja) initial = (Ok df, st')
    ∧ Forall2
        (λ word (record : gmap string cell),
           record !! "word" = Some word
           ∧ is_Some (record !! "generated_definition")
           ∧ dom record
             ⊆ ({["word"; "generated_definition"; "reference_definition"]}
                : gset string))
        [CStr (txt "kudus"); CStr (txt "meja")] (rows df).
Proof.
  apply (records_have_three_fields_at_most offline
           [CStr (txt "kudus"); CStr (txt "meja")]
           (Some two_rows_for_meja) initial).
  apply two_rows_for_meja_columns.
Defined.

Lemma reference_lookup_finds_rows_witness :
  ((∃ d, reference_lookup (Some two_rows_for_meja) (CStr (txt "meja"))
         = Ok (Some d))
   ↔ ∃ row, row ∈ rows two_rows_for_meja
            ∧ row !! "word" = Some (CStr (txt "meja")))
  ∧ (∀ d, reference_lookup (Some two_rows_for_meja) (CStr (txt "meja"))
          = Ok (Some d) →
          ∃ row, row ∈ rows two_rows_for_meja
                 ∧ row !! "word" = Some (CStr (txt "meja"))
                 ∧ frame_cell row "definition" = d)
  ∧ reference_lookup None (CStr (txt "meja")) = Ok None.
Proof.
  apply (reference_lookup_finds_rows two_rows_for_meja (txt "meja")).
  - apply two_rows_for_meja_columns.
  - apply two_rows_for_meja_columns.
Defined.

Lemma unreadable_listing_is_reported_witness :
  (AttributeError = JSONDecodeError ∨ AttributeError = AttributeError
   ∨ AttributeError = TypeError)
  ∧ ∃ st',
      check_ollama_connection (server_listing (JList [])) initial
      = (Ok false, st')
      ∧ trace st'
        = trace initial
          ++ [Requested (GET version_url); Printed MsgOllamaRunning;
              Requested (GET tags_url);
              Printed (MsgErrorChecking AttributeError)].
Proof.
  apply (unreadable_listing_is_reported (server_listing (JList [])) initial
           (Response 200 (Some (JDict ∅)))
           (Response 200 (Some (JList []))) AttributeError);
    reflexivity.
Defined.

Lemma working_probe_succeeds (generated : gmap string json) (ref : DataFrame)
  (writable : bool) :
  probe_succeeds (working generated ref writable) 0.
Proof.
  exists (Response 200 (Some (JDict ∅))),
    (Response 200 (Some listing_nameless_then_model)),
    {[ "models" :=
         JList [JDict {[ "size" := JNum 3 ]};
                JDict {[ "name" := JStr MODEL_NAME ]}] ]},
    [ {[ "size" := JNum 3 ]}; {[ "name" := JStr MODEL_NAME ]} ],
    {[ "name" := JStr MODEL_NAME ]}.
  do 6 (split; [reflexivity|]). split; [right; left | reflexivity].
Defined.

Lemma working_inputs_load (generated : gmap string json) (ref : DataFrame)
  (writable : bool) :
  inputs_load (working generated ref writable)
    [CStr (txt "meja"); CStr (txt "kudus")] ref.
Proof.
  exists (word_table [txt "meja"; txt "kudus"]).
  split; [reflexivity|]. split; [left|]. split; reflexivity.
Defined.

Lemma main_writes_the_results_witness :
  ∃ df st',
    main (working {[ "response" := JStr (txt "perabot") ]}
            two_rows_for_meja true) initial
    = (Ok tt, st')
    ∧ files st' = <[output_filename := df]> (files initial)
    ∧ length (rows df) = length [CStr (txt "meja"); CStr (txt "kudus")]
    ∧ (λ record : gmap string cell, record !! "word") <$> rows df
      = Some <$> [CStr (txt "meja"); CStr (txt "kudus")].
Proof.
  apply (main_writes_the_results
           (working {[ "response" := JStr (txt "perabot") ]}
              two_rows_for_meja true) initial
           [CStr (txt "meja"); CStr (txt "kudus")] two_rows_for_meja).
  - apply working_probe_succeeds.
  - apply working_inputs_load.
  - apply two_rows_for_meja_columns.
  - apply two_rows_for_meja_columns.
  - reflexivity.
Defined.

Lemma main_stops_when_load_fails_witness :
  ∃ st', main (server_listing listing_nameless_then_model) initial
         = (Ok tt, st')
         ∧ files st' = files initial
         ∧ requests st' = (requests initial + 2)%nat.
Proof.
  apply (main_stops_when_load_fails
           (server_listing listing_nameless_then_model) initial).
  - exists (Response 200 (Some (JDict ∅))),
      (Response 200 (Some listing_nameless_then_model)),
      {[ "models" :=
           JList [JDict {[ "size" := JNum 3 ]};
                  JDict {[ "name" := JStr MODEL_NAME ]}] ]},
      [ {[ "size" := JNum 3 ]}; {[ "name" := JStr MODEL_NAME ]} ],
      {[ "name" := JStr MODEL_NAME ]}.
    do 6 (split; [reflexivity|]). split; [right; left | reflexivity].
  - intros words ref (wf & H & _). discriminate H.
Defined.

Lemma main_loses_results_when_unwritable_witness :
  ∃ st',
    main (working {[ "response" := JStr (txt "perabot") ]}
            two_rows_for_meja false) initial
    = (Raised PermissionError, st')
    ∧ files st' = files initial.
Proof.
  apply (main_loses_results_when_unwritable
           (working {[ "response" := JStr (txt "perabot") ]}
              two_rows_for_meja false) initial
           [CStr (txt "meja"); CStr (txt "kudus")] two_rows_for_meja).
  - apply working_probe_succeeds.
  - apply working_inputs_load.
  - apply two_rows_for_meja_columns.
  - apply two_rows_for_meja_columns.
  - reflexivity.
Defined.

Lemma main_touches_only_the_output_witness :
  let run :=
    main (working {[ "response" := JStr (txt "perabot") ]} other_headers true)
      initial in
  (∀ e, run.1 = Raised e →
        (e = PermissionError
         ∧ output_writable
             (working {[ "response" := JStr (txt "perabot") ]}
                other_headers true) = false)
        ∨ (e = KeyError
           ∧ ∃ words ref,
               inputs_load
                 (working {[ "response" := JStr (txt "perabot") ]}
                    other_headers true) words ref
               ∧ Exists (lookup_fails (Some ref)) words))
  ∧ ∀ path, path ≠ output_filename →
            files run.2 !! path = files initial !! path.
Proof.
  apply (main_touches_only_the_output
           (working {[ "response" := JStr (txt "perabot") ]} other_headers true)
           initial).
  vm_compute. reflexivity.
Defined.

Lemma main_raises_without_word_column_witness :
  ∃ st',
    main (working {[ "response" := JStr (txt "perabot") ]}
            other_headers true) initial
    = (Raised KeyError, st')
    ∧ files st' = files initial.
Proof.
  apply (main_raises_without_word_column
           (working {[ "response" := JStr (txt "perabot") ]}
              other_headers true) initial
           [CStr (txt "meja"); CStr (txt "kudus")] other_headers).
  - apply working_probe_succeeds.
  - apply working_inputs_load.
  - discriminate.
  - apply other_headers_columns.
Defined.

End Runs.
